(** * goflagconfig: a typed configuration registry with a text file codec

    A shallow embedding of [config.go] (package [goflagconfig]).  Go strings
    are byte sequences and are modelled by [string]; the Go maps [formal] and
    [actual] are [gmap string Config]; the storage cells that the bound
    variables live in form an explicit heap, because every [Value] is a
    pointer to such a cell and [Set] mutates it in place.  A method takes
    its receiver and the world (heap, standard output, files) and returns
    them; a panic is an outcome of its own.  The routines of [strings],
    [strconv] and [bufio] that the package calls are written out from their
    Go definitions; the floating-point ones ([ParseFloat], [FormatFloat])
    and those of [time] are parameters. *)

From Stdlib Require Import ZArith Ascii String Floats.
From stdpp Require Import gmap strings list fin_maps sorting.

Local Open Scope string_scope.
Local Open Scope Z_scope.

(** ** Bytes *)

Definition byte_of (c : ascii) : Z := Z.of_N (N_of_ascii c).

Definition LF : ascii := "010"%char.
Definition quote : ascii := "034"%char.

(** ** Package [strings] *)

(** [strings.Index(s, substr)]: byte offset of the first occurrence, or -1. *)
Definition strings_Index (s substr : string) : Z :=
  match String.index 0 substr s with
  | Some n => Z.of_nat n
  | None => -1
  end.

(** [s[:n]] for [0 <= n <= len(s)]. *)
Definition slice_to (s : string) (n : Z) : string :=
  String.substring 0 (Z.to_nat n) s.

(** The number of bytes of [s] that are [c]. *)
Fixpoint count_byte (c : ascii) (s : string) : nat :=
  match s with
  | EmptyString => 0%nat
  | String a s' => ((if Ascii.eqb a c then 1 else 0) + count_byte c s')%nat
  end.

(** [strings.Split(s, sep)] for a one-byte separator: the pieces between
    consecutive occurrences of [sep], one more piece than occurrences. *)
Fixpoint Split_go (sep : ascii) (cur : string) (s : string) : list string :=
  match s with
  | EmptyString => [String.rev cur]
  | String c s' =>
      if Ascii.eqb c sep then String.rev cur :: Split_go sep "" s'
      else Split_go sep (String c cur) s'
  end.

Definition strings_Split (s : string) (sep : ascii) : list string :=
  Split_go sep "" s.

(** The six ASCII bytes of [asciiSpace]: \t \n \v \f \r and space. *)
Definition asciiSpace (c : ascii) : bool :=
  let b := byte_of c in ((9 <=? b) && (b <=? 13)) || (b =? 32).

(** [unicode.IsSpace] on the UTF-8 encoding of a rune above U+007F:
    U+0085 and U+00A0 take two bytes; U+1680, U+2000..U+200A, U+2028,
    U+2029, U+202F, U+205F and U+3000 take three. *)
Definition isSpace2 (c0 c1 : ascii) : bool :=
  (byte_of c0 =? 194) && ((byte_of c1 =? 133) || (byte_of c1 =? 160)).

Definition isSpace3 (c0 c1 c2 : ascii) : bool :=
  let b0 := byte_of c0 in let b1 := byte_of c1 in let b2 := byte_of c2 in
  ((b0 =? 225) && (b1 =? 154) && (b2 =? 128))
  || ((b0 =? 226) && (b1 =? 128)
      && (((128 <=? b2) && (b2 <=? 138)) || (b2 =? 168) || (b2 =? 169) || (b2 =? 175)))
  || ((b0 =? 226) && (b1 =? 129) && (b2 =? 159))
  || ((b0 =? 227) && (b1 =? 128) && (b2 =? 128)).

(** [strings.TrimLeftFunc(s, unicode.IsSpace)]: drop leading white-space
    runes.  A leading rune is decoded from the front of the string. *)
Fixpoint trimLeftSpace (s : string) : string :=
  match s with
  | EmptyString => ""
  | String c0 s1 =>
      if asciiSpace c0 then trimLeftSpace s1
      else match s1 with
           | EmptyString => s
           | String c1 s2 =>
               if isSpace2 c0 c1 then trimLeftSpace s2
               else match s2 with
                    | EmptyString => s
                    | String c2 s3 =>
                        if isSpace3 c0 c1 c2 then trimLeftSpace s3 else s
                    end
           end
  end.

(** [strings.TrimRightFunc(s, unicode.IsSpace)], on the reversed string: the
    last rune is white space exactly when the string ends with one of the
    encodings above, which read backwards here. *)
Fixpoint trimRightSpace_rev (r : string) : string :=
  match r with
  | EmptyString => ""
  | String c0 r1 =>
      if asciiSpace c0 then trimRightSpace_rev r1
      else match r1 with
           | EmptyString => r
           | String c1 r2 =>
               if isSpace2 c1 c0 then trimRightSpace_rev r2
               else match r2 with
                    | EmptyString => r
                    | String c2 r3 =>
                        if isSpace3 c2 c1 c0 then trimRightSpace_rev r3 else r
                    end
           end
  end.

(** [strings.TrimSpace(s)]. *)
Definition strings_TrimSpace (s : string) : string :=
  String.rev (trimRightSpace_rev (String.rev (trimLeftSpace s))).

Definition in_cutset (cutset : string) (c : ascii) : bool :=
  existsb (Ascii.eqb c) (list_ascii_of_string cutset).

Fixpoint trimLeftBytes (cutset : string) (s : string) : string :=
  match s with
  | EmptyString => ""
  | String c s' => if in_cutset cutset c then trimLeftBytes cutset s' else s
  end.

(** [strings.Trim(s, cutset)] for a cutset of ASCII bytes: every leading and
    every trailing byte that occurs in the cutset is removed. *)
Definition strings_Trim (s cutset : string) : string :=
  trimLeftBytes cutset
    (String.rev (trimLeftBytes cutset (String.rev s))).

(** Every byte of [a] is in the cutset. *)
Definition all_in_cutset (cutset a : string) : Prop :=
  forall c, In c (list_ascii_of_string a) -> in_cutset cutset c = true.

(** [t] does not begin with a byte of the cutset. *)
Definition head_not_in_cutset (cutset t : string) : Prop :=
  match t with
  | String c _ => in_cutset cutset c = false
  | EmptyString => True
  end.

(** ** Errors *)

Inductive strconv_Err : Type :=
  | ErrSyntax
  | ErrRange
  | ErrBase (base : Z)
  | ErrBitSize (bitSize : Z).

(** Go [error] values that the package can return: [*strconv.NumError] and
    the [errors.New] strings of package [time]. *)
Inductive error : Type :=
  | NumError (Func Num : string) (Err : strconv_Err)
  | errorString (msg : string).

(** ** Package [strconv] *)

(** [strconv.ParseBool]. *)
Definition strconv_ParseBool (str : string) : bool * option error :=
  if existsb (String.eqb str) ["1"; "t"; "T"; "true"; "TRUE"; "True"] then (true, None)
  else if existsb (String.eqb str) ["0"; "f"; "F"; "false"; "FALSE"; "False"] then (false, None)
  else (false, Some (NumError "ParseBool" str ErrSyntax)).

(** [strconv.FormatBool]. *)
Definition strconv_FormatBool (b : bool) : string :=
  if b then "true" else "false".

Definition IntSize : Z := 64.
Definition maxUint64 : Z := 2 ^ 64 - 1.

(** [lower(c) = c | ('x' - 'X')]. *)
Definition lower (c : Z) : Z := Z.lor c 32.

(** The digit loop of [ParseUint] over the bytes of [s], with the running
    value [n] and the [underscores] flag.  [inr (v, e)] is an early return
    of value [v] with error kind [e]. *)
Fixpoint ParseUint_loop (base : Z) (base0 : bool) (cutoff maxVal : Z)
    (s : string) (n : Z) (underscores : bool) : (Z * bool) + (Z * strconv_Err) :=
  match s with
  | EmptyString => inl (n, underscores)
  | String ch s' =>
      let c := byte_of ch in
      if (c =? 95) && base0 then
        ParseUint_loop base base0 cutoff maxVal s' n true
      else
        let digit :=
          if (48 <=? c) && (c <=? 57) then Some (c - 48)
          else if (97 <=? lower c) && (lower c <=? 122) then Some (lower c - 97 + 10)
          else None in
        match digit with
        | None => inr (0, ErrSyntax)
        | Some d =>
            if base <=? d then inr (0, ErrSyntax)
            else if cutoff <=? n then inr (maxVal, ErrRange)
            else
              let n := n * base in
              let n1 := (n + d) mod 2 ^ 64 in
              if (n1 <? n) || (maxVal <? n1) then inr (maxVal, ErrRange)
              else ParseUint_loop base base0 cutoff maxVal s' n1 underscores
        end
  end.

(** [underscoreOK]: underscores may only separate digits or follow the base
    prefix.  [saw] is the last character class seen: [94] for the beginning,
    [48] for a digit, [95] for an underscore, [33] for anything else. *)
Fixpoint underscoreOK_loop (hex : bool) (s : string) (saw : Z) : bool :=
  match s with
  | EmptyString => negb (saw =? 95)
  | String ch s' =>
      let c := byte_of ch in
      if ((48 <=? c) && (c <=? 57))
         || (hex && (97 <=? lower c) && (lower c <=? 102))
      then underscoreOK_loop hex s' 48
      else if c =? 95 then
        if negb (saw =? 48) then false else underscoreOK_loop hex s' 95
      else if saw =? 95 then false
      else underscoreOK_loop hex s' 33
  end.

Definition is_base_letter (c : ascii) : bool :=
  let l := lower (byte_of c) in (l =? 98) || (l =? 111) || (l =? 120).

Definition underscoreOK (s : string) : bool :=
  let s :=
    match s with
    | String c s' => if (byte_of c =? 45) || (byte_of c =? 43) then s' else s
    | EmptyString => s
    end in
  match s with
  | String c0 (String c1 s') =>
      if (byte_of c0 =? 48) && is_base_letter c1
      then underscoreOK_loop (lower (byte_of c1) =? 120) s' 48
      else underscoreOK_loop false s 94
  | _ => underscoreOK_loop false s 94
  end.

(** [strconv.ParseUint(s, base, bitSize)]. *)
Definition strconv_ParseUint (s : string) (base bitSize : Z) : Z * option error :=
  let fnParseUint := "ParseUint" in
  match s with
  | EmptyString => (0, Some (NumError fnParseUint s ErrSyntax))
  | String c0 rest =>
      let base0 := base =? 0 in
      let s0 := s in
      let prefixed : option (Z * string) :=
        if (2 <=? base) && (base <=? 36) then Some (base, s)
        else if base =? 0 then
          if byte_of c0 =? 48 then
            match rest with
            | String c1 (String c2 s2) =>
                let l := lower (byte_of c1) in
                if l =? 98 then Some (2, String c2 s2)
                else if l =? 111 then Some (8, String c2 s2)
                else if l =? 120 then Some (16, String c2 s2)
                else Some (8, rest)
            | _ => Some (8, rest)
            end
          else Some (10, s)
        else None in
      match prefixed with
      | None => (0, Some (NumError fnParseUint s0 (ErrBase base)))
      | Some (base, s) =>
          let bitSize := if bitSize =? 0 then IntSize else bitSize in
          if (bitSize <? 0) || (64 <? bitSize)
          then (0, Some (NumError fnParseUint s0 (ErrBitSize bitSize)))
          else
            let cutoff := maxUint64 / base + 1 in
            let maxVal := 2 ^ bitSize - 1 in
            match ParseUint_loop base base0 cutoff maxVal s 0 false with
            | inr (v, e) => (v, Some (NumError fnParseUint s0 e))
            | inl (n, underscores) =>
                if underscores && negb (underscoreOK s0)
                then (0, Some (NumError fnParseUint s0 ErrSyntax))
                else (n, None)
            end
      end
  end.

(** Conversion of a [uint64] bit pattern to [int64]. *)
Definition to_int64 (u : Z) : Z :=
  let u := u mod 2 ^ 64 in if u <? 2 ^ 63 then u else u - 2 ^ 64.

(** Conversion of an [int64] to [uint64]. *)
Definition to_uint64 (i : Z) : Z := i mod 2 ^ 64.

(** The error kind of a [*NumError] whose [Err] is not [ErrRange]. *)
Definition not_ErrRange (e : option error) : option strconv_Err :=
  match e with
  | Some (NumError _ _ ErrRange) => None
  | Some (NumError _ _ k) => Some k
  | _ => None
  end.

(** [strconv.ParseInt(s, base, bitSize)]. *)
Definition strconv_ParseInt (s : string) (base bitSize : Z) : Z * option error :=
  let fnParseInt := "ParseInt" in
  match s with
  | EmptyString => (0, Some (NumError fnParseInt s ErrSyntax))
  | String c0 rest =>
      let s0 := s in
      let '(neg, s) :=
        if byte_of c0 =? 43 then (false, rest)
        else if byte_of c0 =? 45 then (true, rest)
        else (false, s) in
      let '(un, err) := strconv_ParseUint s base bitSize in
      match not_ErrRange err with
      | Some k => (0, Some (NumError fnParseInt s0 k))
      | None =>
          let bitSize := if bitSize =? 0 then IntSize else bitSize in
          let cutoff := 2 ^ (bitSize - 1) in
          if negb neg && (cutoff <=? un)
          then (cutoff - 1, Some (NumError fnParseInt s0 ErrRange))
          else if neg && (cutoff <? un)
          then (- cutoff, Some (NumError fnParseInt s0 ErrRange))
          else (if neg then to_int64 (- to_int64 un) else to_int64 un, None)
      end
  end.

Definition digits : string := "0123456789abcdefghijklmnopqrstuvwxyz".

Definition digit_char (d : Z) : ascii :=
  match String.get (Z.to_nat d) digits with
  | Some c => c
  | None => "0"%char
  end.

(** The digits of [u] in [base], most significant first, in front of [acc]
    ([formatBits] fills its buffer from the right in the same way). *)
Fixpoint formatBits_loop (fuel : nat) (base u : Z) (acc : string) : string :=
  match fuel with
  | O => acc
  | S k =>
      let acc' := String (digit_char (u mod base)) acc in
      if u <? base then acc' else formatBits_loop k base (u / base) acc'
  end.

Definition formatBits (u base : Z) (neg : bool) : string :=
  let u := if neg then to_uint64 (- u) else u in
  let s := formatBits_loop 64 base u "" in
  if neg then String "-" s else s.

(** [strconv.FormatUint(i, base)]. *)
Definition strconv_FormatUint (i base : Z) : string := formatBits i base false.

(** [strconv.FormatInt(i, base)]. *)
Definition strconv_FormatInt (i base : Z) : string :=
  formatBits (to_uint64 i) base (i <? 0).

(** [strconv.Itoa(i)]. *)
Definition strconv_Itoa (i : Z) : string := strconv_FormatInt i 10.

(** ** Storage cells *)

(** A storage cell holds a value of one of the bound Go types; the same type
    is the dynamic content of the [interface{}] that [Get] returns.  [int]
    and [uint] are 64 bits wide ([IntSize]); a [float64] is a binary64
    float; a [time.Duration] is an [int64] count of nanoseconds. *)
Inductive cell : Type :=
  | CBool (b : bool)
  | CInt (i : Z)
  | CInt64 (i : Z)
  | CUint (u : Z)
  | CUint64 (u : Z)
  | CString (s : string)
  | CFloat64 (x : float)
  | CDuration (d : Z).

(** A pointer is an index into the heap. *)
Definition loc : Type := nat.

Definition load_bool (h : list cell) (p : loc) : bool :=
  match h !! p with Some (CBool b) => b | _ => false end.
Definition load_int (h : list cell) (p : loc) : Z :=
  match h !! p with Some (CInt i) => i | _ => 0 end.
Definition load_int64 (h : list cell) (p : loc) : Z :=
  match h !! p with Some (CInt64 i) => i | _ => 0 end.
Definition load_uint (h : list cell) (p : loc) : Z :=
  match h !! p with Some (CUint u) => u | _ => 0 end.
Definition load_uint64 (h : list cell) (p : loc) : Z :=
  match h !! p with Some (CUint64 u) => u | _ => 0 end.
Definition load_string (h : list cell) (p : loc) : string :=
  match h !! p with Some (CString s) => s | _ => "" end.
Definition load_float64 (h : list cell) (p : loc) : float :=
  match h !! p with Some (CFloat64 x) => x | _ => 0%float end.
Definition load_duration (h : list cell) (p : loc) : Z :=
  match h !! p with Some (CDuration d) => d | _ => 0 end.

(** [*p = v].  A pointer that a program passes in is one of its variables:
    an index below the length of the heap. *)
Definition store (h : list cell) (p : loc) (v : cell) : list cell := <[p := v]> h.

(** [new(T)]: a fresh cell holding the zero value [zero] of [T]. *)
Definition new (zero : cell) (h : list cell) : loc * list cell :=
  (List.length h, (h ++ [zero])%list).

(** ** The [Value] interface *)

(** [Value] is an interface; a value of it is a method table closed over
    the receiver.  [Set] may write to the heap and returns the error. *)
Record Value : Type := mkValue {
  Value_String : list cell -> string;
  Value_Set : string -> list cell -> list cell * option error;
  Value_Get : list cell -> cell
}.

(** -- bool Value *)
Definition newBoolValue_store (val : bool) (p : loc) (h : list cell) : list cell :=
  store h p (CBool val).

Definition boolValue_Set (b : loc) (s : string) (h : list cell) : list cell * option error :=
  let '(v, err) := strconv_ParseBool s in
  (store h b (CBool v), err).

Definition boolValue_Get (b : loc) (h : list cell) : cell := CBool (load_bool h b).

Definition boolValue_String (b : loc) (h : list cell) : string :=
  strconv_FormatBool (load_bool h b).

Definition boolValue (p : loc) : Value :=
  mkValue (boolValue_String p) (boolValue_Set p) (boolValue_Get p).

(** -- int Value *)
Definition intValue_Set (i : loc) (s : string) (h : list cell) : list cell * option error :=
  let '(v, err) := strconv_ParseInt s 0 64 in
  (store h i (CInt v), err).

Definition intValue_Get (i : loc) (h : list cell) : cell := CInt (load_int h i).

Definition intValue_String (i : loc) (h : list cell) : string :=
  strconv_Itoa (load_int h i).

Definition intValue (p : loc) : Value :=
  mkValue (intValue_String p) (intValue_Set p) (intValue_Get p).

(** -- int64 Value *)
Definition int64Value_Set (i : loc) (s : string) (h : list cell) : list cell * option error :=
  let '(v, err) := strconv_ParseInt s 0 64 in
  (store h i (CInt64 v), err).

Definition int64Value_Get (i : loc) (h : list cell) : cell := CInt64 (load_int64 h i).

Definition int64Value_String (i : loc) (h : list cell) : string :=
  strconv_FormatInt (load_int64 h i) 10.

Definition int64Value (p : loc) : Value :=
  mkValue (int64Value_String p) (int64Value_Set p) (int64Value_Get p).

(** -- uint Value *)
Definition uintValue_Set (i : loc) (s : string) (h : list cell) : list cell * option error :=
  let '(v, err) := strconv_ParseUint s 0 64 in
  (store h i (CUint v), err).

Definition uintValue_Get (i : loc) (h : list cell) : cell := CUint (load_uint h i).

Definition uintValue_String (i : loc) (h : list cell) : string :=
  strconv_FormatUint (load_uint h i) 10.

Definition uintValue (p : loc) : Value :=
  mkValue (uintValue_String p) (uintValue_Set p) (uintValue_Get p).

(** -- uint64 Value *)
Definition uint64Value_Set (i : loc) (s : string) (h : list cell) : list cell * option error :=
  let '(v, err) := strconv_ParseUint s 0 64 in
  (store h i (CUint64 v), err).

Definition uint64Value_Get (i : loc) (h : list cell) : cell := CUint64 (load_uint64 h i).

Definition uint64Value_String (i : loc) (h : list cell) : string :=
  strconv_FormatUint (load_uint64 h i) 10.

Definition uint64Value (p : loc) : Value :=
  mkValue (uint64Value_String p) (uint64Value_Set p) (uint64Value_Get p).

(** -- string Value *)
Definition stringValue_Set (s : loc) (val : string) (h : list cell) : list cell * option error :=
  (store h s (CString val), None).

Definition stringValue_Get (s : loc) (h : list cell) : cell := CString (load_string h s).

Definition stringValue_String (s : loc) (h : list cell) : string := load_string h s.

Definition stringValue (p : loc) : Value :=
  mkValue (stringValue_String p) (stringValue_Set p) (stringValue_Get p).

(** The float64 and duration values go through [strconv.ParseFloat],
    [strconv.FormatFloat], [time.ParseDuration] and [Duration.String]; these
    library routines are taken as they come. *)
Section LibraryValues.

Variable strconv_ParseFloat : string -> Z -> float * option error.
Variable strconv_FormatFloat : float -> ascii -> Z -> Z -> string.
Variable time_ParseDuration : string -> Z * option error.
Variable Duration_String : Z -> string.

(** -- float64 Value *)
Definition float64Value_Set (f : loc) (s : string) (h : list cell) : list cell * option error :=
  let '(v, err) := strconv_ParseFloat s 64 in
  (store h f (CFloat64 v), err).

Definition float64Value_Get (f : loc) (h : list cell) : cell := CFloat64 (load_float64 h f).

Definition float64Value_String (f : loc) (h : list cell) : string :=
  strconv_FormatFloat (load_float64 h f) "g"%char (-1) 64.

Definition float64Value (p : loc) : Value :=
  mkValue (float64Value_String p) (float64Value_Set p) (float64Value_Get p).

(** -- time.Duration Value *)
Definition durationValue_Set (d : loc) (s : string) (h : list cell) : list cell * option error :=
  let '(v, err) := time_ParseDuration s in
  (store h d (CDuration v), err).

Definition durationValue_Get (d : loc) (h : list cell) : cell := CDuration (load_duration h d).

Definition durationValue_String (d : loc) (h : list cell) : string :=
  Duration_String (load_duration h d).

Definition durationValue (p : loc) : Value :=
  mkValue (durationValue_String p) (durationValue_Set p) (durationValue_Get p).

End LibraryValues.

(** ** The world outside the registry *)

Definition nl : string := String LF "".

(** A call of [fmt.Printf] or [fmt.Println] on standard output, kept as the
    format and its arguments. *)
Inductive fmt_arg : Type :=
  | ArgString (s : string)
  | ArgError (e : error).

Inductive fmt_call : Type :=
  | Printf (format : string) (args : list fmt_arg)
  | Println (msg : string).

(** The heap of bound variables, what was printed so far, and the file
    system: the contents of the files that exist, and the paths on which
    [os.Open] and [os.Create] fail. *)
Record World : Type := mkWorld {
  heap : list cell;
  stdout : list fmt_call;
  files : gmap string string;
  denied : gset string
}.

Definition set_heap (h : list cell) (w : World) : World :=
  mkWorld h (stdout w) (files w) (denied w).

Definition print (c : fmt_call) (w : World) : World :=
  mkWorld (heap w) (stdout w ++ [c])%list (files w) (denied w).

(** [os.Create(name)]: the file is created or truncated. *)
Definition os_Create (name : string) (w : World) : option World :=
  if decide (name ∈ denied w) then None
  else Some (mkWorld (heap w) (stdout w) (<[name := ""]> (files w)) (denied w)).

(** [os.Open(name)]: the bytes of the file. *)
Definition os_Open (name : string) (w : World) : option string :=
  if decide (name ∈ denied w) then None else files w !! name.

(** A write of [text] at the end of the file [name]. *)
Definition write_file (name text : string) (w : World) : World :=
  mkWorld (heap w) (stdout w)
    (<[name := default "" (files w !! name) ++ text]> (files w)) (denied w).

(** A call either returns, or panics with a message; both leave a world. *)
Inductive outcome (A : Type) : Type :=
  | Return (a : A) (w : World)
  | Panic (msg : string) (w : World).
Arguments Return {A} a w.
Arguments Panic {A} msg w.

(** [bufio.ScanLines] with the scanner's token limit: the lines of the
    input without their end-of-line marker (an optional carriage return and
    a newline); a last line without newline is a line when it is not empty;
    scanning stops at a line that does not fit the buffer. *)
Definition MaxScanTokenSize : Z := 64 * 1024.

Definition dropCR (rev_line : string) : string :=
  match rev_line with
  | String c r => if byte_of c =? 13 then String.rev r else String.rev rev_line
  | EmptyString => ""
  end.

Fixpoint ScanLines_go (cur : string) (n : Z) (s : string) : list string :=
  match s with
  | EmptyString => if n =? 0 then [] else [dropCR cur]
  | String c s' =>
      if byte_of c =? 10 then dropCR cur :: ScanLines_go "" 0 s'
      else if MaxScanTokenSize <=? n + 1 then []
      else ScanLines_go (String c cur) (n + 1) s'
  end.

Definition bufio_Scan (content : string) : list string :=
  ScanLines_go "" 0 content.

(** ** Configs and config sets *)

(** A Config represents the state of a config. *)
Record Config : Type := mkConfig {
  Config_Name : string;
  Config_Usage : string;
  Config_Value : Value;
  Config_DefValue : string
}.

(** A ConfigSet represents a set of defined configs.  A nil map and an
    empty map read alike and are both the empty [gmap]. *)
Record ConfigSet : Type := mkConfigSet {
  filename : string;
  parsed : bool;
  actual : gmap string Config;
  formal : gmap string Config
}.

Definition set_formal (m : gmap string Config) (f : ConfigSet) : ConfigSet :=
  mkConfigSet (filename f) (parsed f) (actual f) m.

Definition set_actual (m : gmap string Config) (f : ConfigSet) : ConfigSet :=
  mkConfigSet (filename f) (parsed f) m (formal f).

(** [sortConfigs]: the names of the configs, sorted, and for each name the
    entry the map has under it ([None] is the nil pointer of a name that is
    no key). *)
Definition sortConfigs (configs : gmap string Config) : list (option Config) :=
  let list := merge_sort String.le (Config_Name <$> (map_to_list configs).*2) in
  (fun name => configs !! name) <$> list.

(** The loop of [VisitAll] and [Visit]: [fn] is called on each pointer. *)
Fixpoint visit_each (fn : option Config -> World -> outcome unit)
    (l : list (option Config)) (w : World) : outcome unit :=
  match l with
  | [] => Return tt w
  | c :: l' =>
      match fn c w with
      | Return _ w' => visit_each fn l' w'
      | Panic msg w' => Panic msg w'
      end
  end.

Definition ConfigSet_VisitAll (f : ConfigSet)
    (fn : option Config -> World -> outcome unit) (w : World) : outcome unit :=
  visit_each fn (sortConfigs (formal f)) w.

Definition ConfigSet_Visit (f : ConfigSet)
    (fn : option Config -> World -> outcome unit) (w : World) : outcome unit :=
  visit_each fn (sortConfigs (actual f)) w.

Definition ConfigSet_Lookup (f : ConfigSet) (name : string) : option Config :=
  formal f !! name.

(** [NConfig]: the number of configs that have been set. *)
Definition ConfigSet_NConfig (f : ConfigSet) : nat := size (actual f).

(** [Var] defines a config with the specified name and usage string. *)
Definition ConfigSet_Var (f : ConfigSet) (value : Value) (name usage : string)
    (w : World) : outcome ConfigSet :=
  let config := mkConfig name usage value (Value_String value (heap w)) in
  match formal f !! name with
  | Some _ =>
      let msg :=
        if String.eqb (filename f) "" then "config redefined: " ++ name
        else filename f ++ " config redefined: " ++ name in
      Panic msg (print (Println msg) w)
  | None => Return (set_formal (<[name := config]> (formal f)) f) w
  end.

(** [newXValue(val, p)] stores [val] in [*p] before [Var] is entered. *)
Definition ConfigSet_BoolVar (f : ConfigSet) (p : loc) (name : string) (value : bool)
    (usage : string) (w : World) : outcome ConfigSet :=
  ConfigSet_Var f (boolValue p) name usage (set_heap (store (heap w) p (CBool value)) w).

Definition ConfigSet_IntVar (f : ConfigSet) (p : loc) (name : string) (value : Z)
    (usage : string) (w : World) : outcome ConfigSet :=
  ConfigSet_Var f (intValue p) name usage (set_heap (store (heap w) p (CInt value)) w).

Definition ConfigSet_Int64Var (f : ConfigSet) (p : loc) (name : string) (value : Z)
    (usage : string) (w : World) : outcome ConfigSet :=
  ConfigSet_Var f (int64Value p) name usage (set_heap (store (heap w) p (CInt64 value)) w).

Definition ConfigSet_UintVar (f : ConfigSet) (p : loc) (name : string) (value : Z)
    (usage : string) (w : World) : outcome ConfigSet :=
  ConfigSet_Var f (uintValue p) name usage (set_heap (store (heap w) p (CUint value)) w).

Definition ConfigSet_Uint64Var (f : ConfigSet) (p : loc) (name : string) (value : Z)
    (usage : string) (w : World) : outcome ConfigSet :=
  ConfigSet_Var f (uint64Value p) name usage (set_heap (store (heap w) p (CUint64 value)) w).

Definition ConfigSet_StringVar (f : ConfigSet) (p : loc) (name : string) (value : string)
    (usage : string) (w : World) : outcome ConfigSet :=
  ConfigSet_Var f (stringValue p) name usage (set_heap (store (heap w) p (CString value)) w).

(** [p := new(T); f.TVar(p, name, value, usage); return p]. *)
Definition with_new (zero : cell) (w : World)
    (k : loc -> World -> outcome ConfigSet) : outcome (ConfigSet * loc) :=
  let '(p, h) := new zero (heap w) in
  match k p (set_heap h w) with
  | Return f' w' => Return (f', p) w'
  | Panic msg w' => Panic msg w'
  end.

Definition ConfigSet_Bool (f : ConfigSet) (name : string) (value : bool) (usage : string)
    (w : World) : outcome (ConfigSet * loc) :=
  with_new (CBool false) w (fun p => ConfigSet_BoolVar f p name value usage).

Definition ConfigSet_Int (f : ConfigSet) (name : string) (value : Z) (usage : string)
    (w : World) : outcome (ConfigSet * loc) :=
  with_new (CInt 0) w (fun p => ConfigSet_IntVar f p name value usage).

Definition ConfigSet_Int64 (f : ConfigSet) (name : string) (value : Z) (usage : string)
    (w : World) : outcome (ConfigSet * loc) :=
  with_new (CInt64 0) w (fun p => ConfigSet_Int64Var f p name value usage).

Definition ConfigSet_Uint (f : ConfigSet) (name : string) (value : Z) (usage : string)
    (w : World) : outcome (ConfigSet * loc) :=
  with_new (CUint 0) w (fun p => ConfigSet_UintVar f p name value usage).

Definition ConfigSet_Uint64 (f : ConfigSet) (name : string) (value : Z) (usage : string)
    (w : World) : outcome (ConfigSet * loc) :=
  with_new (CUint64 0) w (fun p => ConfigSet_Uint64Var f p name value usage).

Definition ConfigSet_String (f : ConfigSet) (name : string) (value : string) (usage : string)
    (w : World) : outcome (ConfigSet * loc) :=
  with_new (CString "") w (fun p => ConfigSet_StringVar f p name value usage).

Section LibraryVars.

Variable strconv_ParseFloat : string -> Z -> float * option error.
Variable strconv_FormatFloat : float -> ascii -> Z -> Z -> string.
Variable time_ParseDuration : string -> Z * option error.
Variable Duration_String : Z -> string.

Definition ConfigSet_Float64Var (f : ConfigSet) (p : loc) (name : string) (value : float)
    (usage : string) (w : World) : outcome ConfigSet :=
  ConfigSet_Var f (float64Value strconv_ParseFloat strconv_FormatFloat p) name usage
    (set_heap (store (heap w) p (CFloat64 value)) w).

Definition ConfigSet_Float64 (f : ConfigSet) (name : string) (value : float) (usage : string)
    (w : World) : outcome (ConfigSet * loc) :=
  with_new (CFloat64 0%float) w (fun p => ConfigSet_Float64Var f p name value usage).

Definition ConfigSet_DurationVar (f : ConfigSet) (p : loc) (name : string) (value : Z)
    (usage : string) (w : World) : outcome ConfigSet :=
  ConfigSet_Var f (durationValue time_ParseDuration Duration_String p) name usage
    (set_heap (store (heap w) p (CDuration value)) w).

Definition ConfigSet_Duration (f : ConfigSet) (name : string) (value : Z) (usage : string)
    (w : World) : outcome (ConfigSet * loc) :=
  with_new (CDuration 0) w (fun p => ConfigSet_DurationVar f p name value usage).

End LibraryVars.

(** [Set] sets the value of the named config. *)
Definition ConfigSet_Set (f : ConfigSet) (name value : string) (w : World)
    : outcome (ConfigSet * option error) :=
  match formal f !! name with
  | None =>
      match ConfigSet_String f name value "" w with
      | Return (f', _) w' =>
          Return (f', None)
            (print (Printf ("Added config (string) %s = %s" ++ nl)
                      [ArgString name; ArgString value]) w')
      | Panic msg w' => Panic msg w'
      end
  | Some config =>
      let '(h', err) := Value_Set (Config_Value config) value (heap w) in
      let w' := set_heap h' w in
      match err with
      | Some e => Return (f, Some e) w'
      | None => Return (set_actual (<[name := config]> (actual f)) f, None) w'
      end
  end.

(** [NewConfigSet] returns a new, empty config set. *)
Definition NewConfigSet (filename : string) : ConfigSet :=
  mkConfigSet filename false ∅ ∅.

Definition ConfigSet_Init (f : ConfigSet) (filename : string) : ConfigSet :=
  mkConfigSet filename (parsed f) (actual f) (formal f).

(** The package-level [VisitAll] visits the default set [Configuration]. *)
Definition VisitAll (Configuration : ConfigSet)
    (fn : option Config -> World -> outcome unit) (w : World) : outcome unit :=
  ConfigSet_VisitAll Configuration fn w.

Definition nil_dereference : string :=
  "runtime error: invalid memory address or nil pointer dereference".

(** The line that [Save] writes for a config: [name=value # usage]. *)
Definition Save_line (h : list cell) (c : Config) : string :=
  Config_Name c ++ "=" ++ Value_String (Config_Value c) h ++ " # " ++ Config_Usage c ++ nl.

(** The visitor of [Save]:
    [fmt.Fprintf(out, "%s=%s # %s\n", f.Name, f.Value.String(), f.Usage)]. *)
Definition Save_visitor (out : string) (c : option Config) (w : World) : outcome unit :=
  match c with
  | None => Panic nil_dereference w
  | Some c =>
      Return tt (write_file out (Save_line (heap w) c) w)
  end.

(** [Save] writes the configuration to the filename configured in the
    [NewConfigSet] function.  [Configuration] is the package's default set,
    which the package-level [VisitAll] reads. *)
Definition ConfigSet_Save (Configuration f : ConfigSet) (w : World) : outcome unit :=
  if String.eqb (filename f) "" then
    Return tt (print (Printf ("No filename to save." ++ nl) []) w)
  else
    let w := print (Printf ("Writing config to %s" ++ nl) [ArgString (filename f)]) w in
    match os_Create (filename f) w with
    | None => Return tt w
    | Some w =>
        match VisitAll Configuration (Save_visitor (filename f)) w with
        | Return _ w => Return tt (print (Printf ("Done." ++ nl) []) w)
        | Panic msg w => Panic msg w
        end
    end.

Definition Print_visitor (c : option Config) (w : World) : outcome unit :=
  match c with
  | None => Panic nil_dereference w
  | Some c =>
      Return tt
        (print (Printf ("%-20s = %s # %s" ++ nl)
                  [ArgString (Config_Name c);
                   ArgString (Value_String (Config_Value c) (heap w));
                   ArgString (Config_Usage c)]) w)
  end.

(** [Print] will dump all the current configuration settings. *)
Definition ConfigSet_Print (Configuration f : ConfigSet) (w : World) : outcome unit :=
  VisitAll Configuration Print_visitor w.

(** [ci := strings.Index(line, "#"); if ci > -1 { line = line[:ci] }]. *)
Definition strip_comment (line : string) : string :=
  let ci := strings_Index line "#" in
  if -1 <? ci then slice_to line ci else line.

(** The body of the scanner loop of [Load], for one line. *)
Definition Load_line (f : ConfigSet) (line : string) (w : World) : outcome ConfigSet :=
  let line := strip_comment line in
  match strings_Split line "="%char with
  | [k; v] =>
      let key := strings_TrimSpace k in
      let val := strings_Trim (strings_TrimSpace v) (String quote "") in
      match ConfigSet_Set f key val w with
      | Return (f', Some err) w' =>
          Return f' (print (Printf ("f.Set returned err=%v" ++ nl) [ArgError err]) w')
      | Return (f', None) w' => Return f' w'
      | Panic msg w' => Panic msg w'
      end
  | _ => Return f w
  end.

Fixpoint Load_lines (f : ConfigSet) (lines : list string) (w : World) : outcome ConfigSet :=
  match lines with
  | [] => Return f w
  | line :: rest =>
      match Load_line f line w with
      | Return f' w' => Load_lines f' rest w'
      | Panic msg w' => Panic msg w'
      end
  end.

(** [Load] reads the file of the set, line by line. *)
Definition ConfigSet_Load (f : ConfigSet) (w : World) : outcome ConfigSet :=
  if String.eqb (filename f) "" then
    Return f (print (Printf ("No file to load." ++ nl) []) w)
  else
    let w := print (Printf ("Loading config from %s" ++ nl) [ArgString (filename f)]) w in
    match os_Open (filename f) w with
    | None => Return f w
    | Some content => Load_lines f (bufio_Scan content) w
    end.

(** [SetFile], [Save], [Print] and [Load] of the package act on the default
    set. *)
Definition SetFile (Configuration : ConfigSet) (filename : string) : ConfigSet :=
  ConfigSet_Init Configuration filename.

Definition Save (Configuration : ConfigSet) (w : World) : outcome unit :=
  ConfigSet_Save Configuration Configuration w.

Definition Load (Configuration : ConfigSet) (w : World) : outcome ConfigSet :=
  ConfigSet_Load Configuration w.

(** ** The command-line parser *)

(** Modelled from the spec: the split of a flag token at its first [=],
    the text before and after the first [sep] of [s] when there is one. *)
Fixpoint cut_go (sep : ascii) (cur : string) (s : string) : option (string * string) :=
  match s with
  | EmptyString => None
  | String c s' =>
      if Ascii.eqb c sep then Some (String.rev cur, s')
      else cut_go sep (String c cur) s'
  end.

Definition strings_Cut (s : string) (sep : ascii) : option (string * string) :=
  cut_go sep "" s.

(** Modelled from the spec: one or two leading minus signs are stripped
    from a flag token. *)
Definition strip_dashes (tok : string) : string :=
  match tok with
  | String "-" (String "-" rest) => rest
  | String "-" rest => rest
  | _ => tok
  end.

(** Modelled from the spec: whether the binding of [name] is boolean, read
    off the dynamic type of what its [Get] returns. *)
Definition is_bool_binding (f : ConfigSet) (name : string) (w : World) : bool :=
  match formal f !! name with
  | Some c => match Value_Get (Config_Value c) (heap w) with CBool _ => true | _ => false end
  | None => false
  end.

(** Modelled from the spec: the command-line parser ([Parse]) is described
    in section 4.3 of the specification and has no function in [config.go].
    The argument list is read token by token, left to right.  Reading stops
    at a token that is exactly [--] (consumed), at a token that is exactly
    [-], and at a token that does not begin with [-]; the tokens left are
    the positional arguments.  A flag token loses one or two leading [-] and
    is split at its first [=]: with a right-hand side the binding is [Set]
    at once; without one a boolean binding is set to [true] and any other
    takes the next token as its value, and parsing fails when there is none.
    An unknown name goes through [Set] like any other.  The result is the
    set, the positional arguments and the error that stopped the parse. *)
Fixpoint Parse (f : ConfigSet) (args : list string) (w : World)
    : outcome (ConfigSet * list string * option error) :=
  match args with
  | [] => Return (f, [], None) w
  | tok :: rest =>
      if String.eqb tok "--" then Return (f, rest, None) w
      else if String.eqb tok "-" then Return (f, args, None) w
      else if negb (String.prefix "-" tok) then Return (f, args, None) w
      else
        let body := strip_dashes tok in
        match strings_Cut body "="%char with
        | Some (name, value) =>
            match ConfigSet_Set f name value w with
            | Return (f', None) w' => Parse f' rest w'
            | Return (f', Some e) w' => Return (f', rest, Some e) w'
            | Panic msg w' => Panic msg w'
            end
        | None =>
            if is_bool_binding f body w then
              match ConfigSet_Set f body "true" w with
              | Return (f', None) w' => Parse f' rest w'
              | Return (f', Some e) w' => Return (f', rest, Some e) w'
              | Panic msg w' => Panic msg w'
              end
            else
              match rest with
              | [] => Return (f, [], Some (errorString ("flag needs an argument: -" ++ body))) w
              | value :: rest' =>
                  match ConfigSet_Set f body value w with
                  | Return (f', None) w' => Parse f' rest' w'
                  | Return (f', Some e) w' => Return (f', rest', Some e) w'
                  | Panic msg w' => Panic msg w'
                  end
              end
        end
  end.

(** ** Sequences of registry operations *)

(** What a program does with a config set: a call of [Var] with any value,
    a call of [Set], a call of [Load], and an assignment to a bound
    variable. *)
Inductive op : Type :=
  | OpVar (value : Value) (name usage : string)
  | OpSet (name value : string)
  | OpLoad
  | OpAssign (p : loc) (v : cell).

Definition run_op (o : op) (f : ConfigSet) (w : World) : outcome ConfigSet :=
  match o with
  | OpVar value name usage => ConfigSet_Var f value name usage w
  | OpSet name value =>
      match ConfigSet_Set f name value w with
      | Return (f', _) w' => Return f' w'
      | Panic msg w' => Panic msg w'
      end
  | OpLoad => ConfigSet_Load f w
  | OpAssign p v => Return f (set_heap (store (heap w) p v) w)
  end.

(** The set after the calls that returned; a panic ends the run, and the
    set is then as the panicking call found it. *)
Fixpoint run_ops (ops : list op) (f : ConfigSet) (w : World) : ConfigSet * World :=
  match ops with
  | [] => (f, w)
  | o :: ops' =>
      match run_op o f w with
      | Return f' w' => run_ops ops' f' w'
      | Panic _ w' => (f, w')
      end
  end.

(** The world a program starts in: no cells, nothing printed. *)
Definition World0 (fs : gmap string string) (no : gset string) : World :=
  mkWorld [] [] fs no.

(** Every entry of [actual] is an entry of [formal]: the same name bound to
    the same config. *)
Definition actual_in_formal (f : ConfigSet) : Prop := actual f ⊆ formal f.

(** Every config is registered under its own name; [Var] is the only
    writer of [formal] and keeps it so. *)
Definition keys_are_names (m : gmap string Config) : Prop :=
  forall k c, m !! k = Some c -> Config_Name c = k.

(** The texts of a list, one after the other. *)
Definition join (l : list string) : string := foldr String.append "" l.

(** ** White space

    The runes for which [unicode.IsSpace] holds, each as the bytes of its
    UTF-8 encoding: \t \n \v \f \r and the space, U+0085 and U+00A0, U+1680,
    U+2000 to U+200A, U+2028, U+2029, U+202F, U+205F and U+3000. *)
Definition utf8 (bytes : list nat) : string :=
  string_of_list_ascii (ascii_of_nat <$> bytes).

Definition unicode_White_Space : list string :=
  utf8 <$>
    [[9]; [10]; [11]; [12]; [13]; [32]; [194; 133]; [194; 160]; [225; 154; 128];
     [226; 128; 128]; [226; 128; 129]; [226; 128; 130]; [226; 128; 131];
     [226; 128; 132]; [226; 128; 133]; [226; 128; 134]; [226; 128; 135];
     [226; 128; 136]; [226; 128; 137]; [226; 128; 138]; [226; 128; 168];
     [226; 128; 169]; [226; 128; 175]; [226; 129; 159]; [227; 128; 128]]%nat.

(** White-space runes, one after the other. *)
Definition white_run (a : string) : Prop :=
  exists runes, Forall (fun r => r ∈ unicode_White_Space) runes /\ a = join runes.

(** The first rune of [t] is white space. *)
Definition begins_with_space (t : string) : Prop :=
  exists r rest, r ∈ unicode_White_Space /\ t = r ++ rest.

(** The last rune of [t] is white space. *)
Definition ends_with_space (t : string) : Prop :=
  exists r rest, r ∈ unicode_White_Space /\ t = rest ++ r.

(** Whether [trimLeftSpace] finds a white-space rune at the front of [t]. *)
Definition head_space (t : string) : bool :=
  match t with
  | EmptyString => false
  | String c0 EmptyString => asciiSpace c0
  | String c0 (String c1 EmptyString) => asciiSpace c0 || isSpace2 c0 c1
  | String c0 (String c1 (String c2 _)) =>
      asciiSpace c0 || isSpace2 c0 c1 || isSpace3 c0 c1 c2
  end.

(** Whether [trimRightSpace_rev] finds a white-space rune at the front of
    the reversed text [r]. *)
Definition last_space_rev (r : string) : bool :=
  match r with
  | EmptyString => false
  | String c0 EmptyString => asciiSpace c0
  | String c0 (String c1 EmptyString) => asciiSpace c0 || isSpace2 c1 c0
  | String c0 (String c1 (String c2 _)) =>
      asciiSpace c0 || isSpace2 c1 c0 || isSpace3 c2 c1 c0
  end.

(** ** Sample programs *)

Definition w_empty : World := World0 ∅ ∅.

(** What a call that must not panic returned. *)
Definition returned {A : Type} (d : A) (o : outcome A) : A * World :=
  match o with
  | Return a w => (a, w)
  | Panic _ w => (d, w)
  end.

(** [f := NewConfigSet("out.conf"); f.String("x", "1", "an x")]. *)
Definition sample_named : ConfigSet * loc * World :=
  returned (NewConfigSet "", 0%nat)
    (ConfigSet_String (NewConfigSet "out.conf") "x" "1" "an x" w_empty).

(** [s] between a pair of double quotes. *)
Definition quoted (s : string) : string := String quote (s ++ String quote "").

(** [b := f.Bool("b", true, "")] on a new set: cell 0 holds [true]. *)
Definition sample_bool : ConfigSet * loc * World :=
  returned (NewConfigSet "", 0%nat) (ConfigSet_Bool (NewConfigSet "") "b" true "" w_empty).

(** [n := f.Int("n", 0, "count")] on a new set with the file name [c.conf],
    in a world where that file has the given content. *)
Definition sample_int (content : string) : ConfigSet * loc * World :=
  returned (NewConfigSet "", 0%nat)
    (ConfigSet_Int (NewConfigSet "c.conf") "n" 0 "count" (World0 {["c.conf" := content]} ∅)).

(** The registry of the command-line scenario: a bool [b] defaulting to
    false, an int [n] defaulting to 0 and a string [s] defaulting to the
    empty string, with the cells they are bound to. *)
Definition scenario_registry : option (ConfigSet * World * loc * loc * loc) :=
  match ConfigSet_Bool (NewConfigSet "") "b" false "" w_empty with
  | Return (f1, pb) w1 =>
      match ConfigSet_Int f1 "n" 0 "" w1 with
      | Return (f2, pn) w2 =>
          match ConfigSet_String f2 "s" "" "" w2 with
          | Return (f3, ps) w3 => Some (f3, w3, pb, pn, ps)
          | Panic _ _ => None
          end
      | Panic _ _ => None
      end
  | Panic _ _ => None
  end.

Definition scenario_args : list string :=
  ["-b"; "-n=42"; "-s"; "hello"; "--"; "pos1"; "pos2"].

(** ** The package-level functions

    The top-level functions act on the default set [Configuration]. *)

Definition Visit (Configuration : ConfigSet)
    (fn : option Config -> World -> outcome unit) (w : World) : outcome unit :=
  ConfigSet_Visit Configuration fn w.

Definition Lookup (Configuration : ConfigSet) (name : string) : option Config :=
  formal Configuration !! name.

Definition NConfig (Configuration : ConfigSet) : nat := size (actual Configuration).

Definition Print (Configuration : ConfigSet) (w : World) : outcome unit :=
  ConfigSet_Print Configuration Configuration w.

(** The call of [fmt.Printf] that the visitor of [Print] makes for a
    config. *)
Definition Print_call (h : list cell) (c : Config) : fmt_call :=
  Printf ("%-20s = %s # %s" ++ nl)
    [ArgString (Config_Name c);
     ArgString (Value_String (Config_Value c) h);
     ArgString (Config_Usage c)].

(** ** Texts that survive the file codec *)

(** A key that [Load] reads back as it was written: no [#], no [=], no
    white space around it. *)
Definition clean_key (s : string) : Prop :=
  count_byte "#" s = 0%nat /\ count_byte "=" s = 0%nat /\ strings_TrimSpace s = s.

(** A value that [Load] reads back as it was written: a clean key that
    neither begins nor ends with a double quote. *)
Definition clean_value (s : string) : Prop :=
  clean_key s /\ strings_Trim s (String quote "") = s.

(** The line of [Save] for a config, without its newline. *)
Definition Save_text (h : list cell) (c : Config) : string :=
  Config_Name c ++ "=" ++ Value_String (Config_Value c) h ++ " # " ++ Config_Usage c.

(** A config whose line [Save] writes and [Load] reads back to the same
    stored value: name and rendered value are clean, the line has no
    newline and fits the scanner, and the value accepts its own rendering
    without changing the heap. *)
Definition saves_well (h : list cell) (c : Config) : Prop :=
  clean_key (Config_Name c) /\
  clean_value (Value_String (Config_Value c) h) /\
  count_byte LF (Save_text h c) = 0%nat /\
  Z.of_nat (String.length (Save_text h c)) < MaxScanTokenSize /\
  Value_Set (Config_Value c) (Value_String (Config_Value c) h) h = (h, None).

(** A printable ASCII byte other than the space, the double quote, [#]
    and [=]. *)
Definition plain_byte (c : ascii) : bool :=
  let b := byte_of c in
  (32 <? b) && (b <? 127) && negb (b =? 34) && negb (b =? 35) && negb (b =? 61).

Fixpoint all_plain (s : string) : bool :=
  match s with
  | EmptyString => true
  | String c s' => plain_byte c && all_plain s'
  end.

(** [b := f.Bool("b", true, "flag"); n := f.Int("n", 42, "count")] on a new
    set with the file name [c.conf]. *)
Definition sample_two : ConfigSet * World :=
  match ConfigSet_Bool (NewConfigSet "c.conf") "b" true "flag" w_empty with
  | Return (f1, _) w1 =>
      match ConfigSet_Int f1 "n" 42 "count" w1 with
      | Return (f2, _) w2 => (f2, w2)
      | Panic _ w2 => (f1, w2)
      end
  | Panic _ w1 => (NewConfigSet "c.conf", w1)
  end.

(** A line of a file whose key stands between a tab and a carriage return
    with a space, and whose value, in double quotes, stands between a space
    with a tab and a no-break space (U+00A0) with a space. *)
Definition tabbed_key : string := utf8 [9%nat] ++ "pie" ++ utf8 [13; 32]%nat.

Definition tabbed_value : string :=
  utf8 [32; 9]%nat ++ quoted "3.14" ++ utf8 [194; 160; 32]%nat.

Definition tabbed_line : string :=
  tabbed_key ++ "=" ++ tabbed_value ++ "# also a comment".

(** [f := NewConfigSet("out.conf"); f.String("z", "last", "a z");
    f.Int("a", 1, "an a"); f.Bool("m", false, "an m"); f.Set("z", "end");
    f.Set("a", "7")], in a world that holds the file [other.conf] and where
    [locked.conf] cannot be created. *)
Definition sample_set : ConfigSet * World :=
  match ConfigSet_String (NewConfigSet "out.conf") "z" "last" "a z"
          (World0 {["other.conf" := "keep"]} {["locked.conf"]}) with
  | Return (f1, _) w1 =>
      match ConfigSet_Int f1 "a" 1 "an a" w1 with
      | Return (f2, _) w2 =>
          match ConfigSet_Bool f2 "m" false "an m" w2 with
          | Return (f3, _) w3 => run_ops [OpSet "z" "end"; OpSet "a" "7"] f3 w3
          | Panic _ w3 => (f2, w3)
          end
      | Panic _ w2 => (f1, w2)
      end
  | Panic _ w1 => (NewConfigSet "out.conf", w1)
  end.

(** * Properties *)

(** ** Registration *)

Lemma store_new_cell (h : list cell) (zero v : cell) :
  store (h ++ [zero])%list (List.length h) v = (h ++ [v])%list.
Proof.
  unfold store. rewrite insert_app_r_alt by lia.
  replace (List.length h - List.length h)%nat with 0%nat by lia. reflexivity.
Qed.

Lemma load_new_string (h : list cell) (s : string) :
  load_string (h ++ [CString s])%list (List.length h) = s.
Proof. unfold load_string. by rewrite list_lookup_middle. Qed.

(** [f.String(name, value, usage)] on a name that is free registers a
    string config bound to a fresh cell that holds [value]. *)
Lemma ConfigSet_String_free (f : ConfigSet) (name value usage : string) (w : World) :
  formal f !! name = None ->
  ConfigSet_String f name value usage w =
    Return
      (set_formal
         (<[name := mkConfig name usage (stringValue (List.length (heap w))) value]> (formal f)) f,
       List.length (heap w))
      (set_heap (heap w ++ [CString value])%list w).
Proof.
  intros Hfree. unfold ConfigSet_String, with_new, new, ConfigSet_StringVar, ConfigSet_Var.
  cbn [heap set_heap]. rewrite Hfree, store_new_cell.
  cbn [Value_String stringValue]. unfold stringValue_String.
  rewrite load_new_string. reflexivity.
Qed.

(** [Set] on a registered name: the value's own [Set] decides. *)
Lemma ConfigSet_Set_registered (f : ConfigSet) (name value : string) (w : World) (c : Config) :
  formal f !! name = Some c ->
  ConfigSet_Set f name value w =
    match Value_Set (Config_Value c) value (heap w) with
    | (h', Some e) => Return (f, Some e) (set_heap h' w)
    | (h', None) => Return (set_actual (<[name := c]> (actual f)) f, None) (set_heap h' w)
    end.
Proof.
  intros Hc. unfold ConfigSet_Set. rewrite Hc.
  destruct (Value_Set (Config_Value c) value (heap w)) as [h' [e|]]; reflexivity.
Qed.

(** [Set] on a name that is not registered. *)
Lemma ConfigSet_Set_unregistered (f : ConfigSet) (name value : string) (w : World) :
  formal f !! name = None ->
  ConfigSet_Set f name value w =
    Return
      (set_formal
         (<[name := mkConfig name "" (stringValue (List.length (heap w))) value]> (formal f)) f,
       None)
      (print (Printf ("Added config (string) %s = %s" ++ nl) [ArgString name; ArgString value])
         (set_heap (heap w ++ [CString value])%list w)).
Proof.
  intros Hfree. unfold ConfigSet_Set. rewrite Hfree.
  rewrite ConfigSet_String_free by assumption. reflexivity.
Qed.

(** [Set] never panics. *)
Lemma ConfigSet_Set_returns (f : ConfigSet) (name value : string) (w : World) :
  exists f' err w', ConfigSet_Set f name value w = Return (f', err) w'.
Proof.
  destruct (formal f !! name) as [c|] eqn:Hc.
  - rewrite (ConfigSet_Set_registered _ _ _ _ _ Hc).
    destruct (Value_Set (Config_Value c) value (heap w)) as [h' [e|]]; eauto.
  - rewrite ConfigSet_Set_unregistered by assumption. eauto.
Qed.

(** C8: [Var] under a name that [formal] already has panics, with the
    message printed and nothing else changed, so the existing binding is
    neither replaced nor kept silently; under a name that [formal] does not
    have, [Var] returns and [formal] has the new binding, whose default
    text is the rendering of the value at that moment. *)
Theorem Var_duplicate_panics_fresh_inserts
    (f : ConfigSet) (value : Value) (name usage : string) (w : World) :
  (is_Some (formal f !! name) ->
     exists msg, ConfigSet_Var f value name usage w = Panic msg (print (Println msg) w)) /\
  (formal f !! name = None ->
     exists f',
       ConfigSet_Var f value name usage w = Return f' w /\
       formal f' = <[name := mkConfig name usage value (Value_String value (heap w))]> (formal f) /\
       ConfigSet_Lookup f' name =
         Some (mkConfig name usage value (Value_String value (heap w))) /\
       actual f' = actual f /\ filename f' = filename f).
Proof.
  split.
  - intros [c Hc]. unfold ConfigSet_Var. rewrite Hc. eauto.
  - intros Hfree. unfold ConfigSet_Var. rewrite Hfree.
    eexists. split; [reflexivity|]. cbn [formal set_formal actual filename].
    unfold ConfigSet_Lookup. cbn [formal set_formal].
    rewrite lookup_insert_eq. auto.
Qed.

Lemma Var_duplicate_panics_fresh_inserts_witness :
  is_Some (formal sample_bool.1.1 !! "b") /\
  (exists msg,
     ConfigSet_Var sample_bool.1.1 (stringValue 0%nat) "b" "again" sample_bool.2 =
       Panic msg (print (Println msg) sample_bool.2)) /\
  formal sample_bool.1.1 !! "c" = None /\
  (exists f',
     ConfigSet_Var sample_bool.1.1 (boolValue 0%nat) "c" "alias" sample_bool.2 =
       Return f' sample_bool.2 /\
     formal f' = <["c" := mkConfig "c" "alias" (boolValue 0%nat) "true"]> (formal sample_bool.1.1) /\
     ConfigSet_Lookup f' "c" = Some (mkConfig "c" "alias" (boolValue 0%nat) "true") /\
     actual f' = actual sample_bool.1.1 /\ filename f' = filename sample_bool.1.1).
Proof.
  assert (Hreg : is_Some (formal sample_bool.1.1 !! "b")) by (vm_compute; eauto).
  assert (Hfree : formal sample_bool.1.1 !! "c" = None) by reflexivity.
  split; [exact Hreg|]. split.
  - exact (proj1 (Var_duplicate_panics_fresh_inserts sample_bool.1.1 (stringValue 0%nat)
                    "b" "again" sample_bool.2) Hreg).
  - split; [exact Hfree|].
    exact (proj2 (Var_duplicate_panics_fresh_inserts sample_bool.1.1 (boolValue 0%nat)
                    "c" "alias" sample_bool.2) Hfree).
Defined.

(** ** [Set] *)

(** C6: on a name that [formal] does not have, [Set] returns without an
    error for any text, and afterwards [Lookup] finds a string config of
    that name whose default text is the given text and whose cell, a new
    one, holds the given text. *)
Theorem Set_unregistered_registers_string
    (f : ConfigSet) (name text : string) (w : World) :
  formal f !! name = None ->
  exists f' w' p,
    ConfigSet_Set f name text w = Return (f', None) w' /\
    ConfigSet_Lookup f' name = Some (mkConfig name "" (stringValue p) text) /\
    heap w !! p = None /\
    heap w' !! p = Some (CString text) /\
    Value_String (stringValue p) (heap w') = text /\
    Value_Get (stringValue p) (heap w') = CString text.
Proof.
  intros Hfree. rewrite ConfigSet_Set_unregistered by assumption.
  eexists _, _, (List.length (heap w)). split; [reflexivity|].
  unfold ConfigSet_Lookup. cbn [formal set_formal heap print set_heap].
  rewrite lookup_insert_eq. split; [reflexivity|].
  split; [apply lookup_ge_None_2; lia|].
  split; [apply list_lookup_middle; reflexivity|].
  cbn [Value_String Value_Get stringValue]. unfold stringValue_Get, stringValue_String.
  rewrite load_new_string. auto.
Qed.

Lemma Set_unregistered_registers_string_witness :
  formal (NewConfigSet "") !! "colour" = None /\
  exists f' w' p,
    ConfigSet_Set (NewConfigSet "") "colour" "red" w_empty = Return (f', None) w' /\
    ConfigSet_Lookup f' "colour" = Some (mkConfig "colour" "" (stringValue p) "red") /\
    heap w_empty !! p = None /\
    heap w' !! p = Some (CString "red") /\
    Value_String (stringValue p) (heap w') = "red" /\
    Value_Get (stringValue p) (heap w') = CString "red".
Proof.
  split; [reflexivity|].
  apply (Set_unregistered_registers_string (NewConfigSet "") "colour" "red" w_empty).
  reflexivity.
Defined.

(** C5, as the code has it: when [Set] returns without an error on a name
    that [formal] had before the call, the name is in [actual] afterwards,
    bound to the config that [formal] has, and [NConfig] counts it. *)
Theorem Set_success_records_registered_name
    (f f' : ConfigSet) (name text : string) (w w' : World) :
  is_Some (formal f !! name) ->
  ConfigSet_Set f name text w = Return (f', None) w' ->
  name ∈ dom (actual f') /\
  actual f' !! name = formal f !! name /\
  (0 < ConfigSet_NConfig f')%nat.
Proof.
  intros [c Hc] Hset. rewrite (ConfigSet_Set_registered _ _ _ _ _ Hc) in Hset.
  destruct (Value_Set (Config_Value c) text (heap w)) as [h' [e|]]; [discriminate|].
  injection Hset as <- _. cbn [actual set_actual].
  assert (Hin : <[name := c]> (actual f) !! name = Some c) by apply lookup_insert_eq.
  split; [apply elem_of_dom; eauto|]. split; [congruence|].
  unfold ConfigSet_NConfig. cbn [actual set_actual].
  destruct (decide (size (<[name := c]> (actual f)) = 0%nat)) as [H0|]; [|lia].
  apply map_size_empty_inv in H0. rewrite H0, lookup_empty in Hin. discriminate.
Qed.

Lemma Set_success_records_registered_name_witness :
  is_Some (formal sample_bool.1.1 !! "b") /\
  exists f' w',
    ConfigSet_Set sample_bool.1.1 "b" "false" sample_bool.2 = Return (f', None) w' /\
    "b" ∈ dom (actual f') /\
    actual f' !! "b" = formal sample_bool.1.1 !! "b" /\
    (0 < ConfigSet_NConfig f')%nat.
Proof.
  assert (Hreg : is_Some (formal sample_bool.1.1 !! "b")) by (vm_compute; eauto).
  split; [exact Hreg|].
  destruct (ConfigSet_Set_returns sample_bool.1.1 "b" "false" sample_bool.2)
    as (f' & err & w' & Hset).
  assert (Herr : err = None).
  { revert Hset. vm_compute. intros H; injection H as _ <- _. reflexivity. }
  subst err. exists f', w'. split; [exact Hset|].
  exact (Set_success_records_registered_name _ _ _ _ _ _ Hreg Hset).
Defined.

(** C5 fails as stated: on a new set, [Set("x", "1")] returns without an
    error, and [actual] is still empty and [NConfig] is 0. *)
Lemma Set_unregistered_not_in_actual :
  exists f' w',
    ConfigSet_Set (NewConfigSet "") "x" "1" w_empty = Return (f', None) w' /\
    ("x" ∉ dom (actual f')) /\
    ConfigSet_NConfig f' = 0%nat.
Proof.
  eexists _, _. split; [reflexivity|].
  cbn [actual set_formal NewConfigSet]. split; [set_solver|reflexivity].
Qed.

(** [ParseBool] returns [false] with every error. *)
Lemma strconv_ParseBool_error (s : string) (v : bool) (e : error) :
  strconv_ParseBool s = (v, Some e) -> v = false.
Proof.
  unfold strconv_ParseBool.
  repeat match goal with |- context [if ?b then _ else _] => destruct b end;
    congruence.
Qed.

(** C2, as the code has it: when the text is invalid for the binding of a
    registered name, [Set] returns the error of the value's own [Set] and
    leaves the set ([formal] and [actual]), the output and the files as they
    were; the heap is the one the value's [Set] left, and the built-in
    values store what the parser returned with the error: a bool cell holds
    [false] afterwards, an integer cell the number [ParseInt] or [ParseUint]
    gave back. *)
Theorem Set_invalid_text_keeps_registry
    (f : ConfigSet) (name text : string) (w : World) (c : Config)
    (h' : list cell) (e : error) :
  formal f !! name = Some c ->
  Value_Set (Config_Value c) text (heap w) = (h', Some e) ->
  ConfigSet_Set f name text w = Return (f, Some e) (set_heap h' w) /\
  (forall p, Config_Value c = boolValue p -> h' = store (heap w) p (CBool false)) /\
  (forall p, Config_Value c = intValue p ->
     h' = store (heap w) p (CInt (strconv_ParseInt text 0 64).1)) /\
  (forall p, Config_Value c = int64Value p ->
     h' = store (heap w) p (CInt64 (strconv_ParseInt text 0 64).1)) /\
  (forall p, Config_Value c = uintValue p ->
     h' = store (heap w) p (CUint (strconv_ParseUint text 0 64).1)) /\
  (forall p, Config_Value c = uint64Value p ->
     h' = store (heap w) p (CUint64 (strconv_ParseUint text 0 64).1)).
Proof.
  intros Hc Hset. split.
  { rewrite (ConfigSet_Set_registered _ _ _ _ _ Hc), Hset. reflexivity. }
  repeat split; intros p Hv; rewrite Hv in Hset;
    cbn [Value_Set boolValue intValue int64Value uintValue uint64Value] in Hset.
  - unfold boolValue_Set in Hset.
    destruct (strconv_ParseBool text) as [v err] eqn:Hp.
    injection Hset as <- ->. by rewrite (strconv_ParseBool_error _ _ _ Hp).
  - unfold intValue_Set in Hset.
    destruct (strconv_ParseInt text 0 64) as [v err]. by injection Hset as <- _.
  - unfold int64Value_Set in Hset.
    destruct (strconv_ParseInt text 0 64) as [v err]. by injection Hset as <- _.
  - unfold uintValue_Set in Hset.
    destruct (strconv_ParseUint text 0 64) as [v err]. by injection Hset as <- _.
  - unfold uint64Value_Set in Hset.
    destruct (strconv_ParseUint text 0 64) as [v err]. by injection Hset as <- _.
Qed.

Lemma Set_invalid_text_keeps_registry_witness :
  formal sample_bool.1.1 !! "b" = Some (mkConfig "b" "" (boolValue 0%nat) "true") /\
  Value_Set (boolValue 0%nat) "maybe" (heap sample_bool.2) =
    ([CBool false], Some (NumError "ParseBool" "maybe" ErrSyntax)) /\
  ConfigSet_Set sample_bool.1.1 "b" "maybe" sample_bool.2 =
    Return (sample_bool.1.1, Some (NumError "ParseBool" "maybe" ErrSyntax))
      (set_heap [CBool false] sample_bool.2).
Proof.
  split; [reflexivity|]. split; [reflexivity|].
  refine (proj1 (Set_invalid_text_keeps_registry sample_bool.1.1 "b" "maybe" sample_bool.2
                   (mkConfig "b" "" (boolValue 0%nat) "true") [CBool false]
                   (NumError "ParseBool" "maybe" ErrSyntax) _ _));
    reflexivity.
Defined.

(** C2 fails as stated: the bool config [b] is bound to cell 0, which holds
    [true]; [Set("b", "maybe")] returns a syntax error and the cell holds
    [false] afterwards. *)
Lemma Set_invalid_text_overwrites_cell :
  formal sample_bool.1.1 !! "b" = Some (mkConfig "b" "" (boolValue 0%nat) "true") /\
  load_bool (heap sample_bool.2) 0%nat = true /\
  exists w',
    ConfigSet_Set sample_bool.1.1 "b" "maybe" sample_bool.2 =
      Return (sample_bool.1.1, Some (NumError "ParseBool" "maybe" ErrSyntax)) w' /\
    load_bool (heap w') 0%nat = false /\
    heap w' <> heap sample_bool.2.
Proof.
  split; [reflexivity|]. split; [reflexivity|].
  eexists. split; [reflexivity|]. split; [reflexivity|]. discriminate.
Qed.

(** ** The invariant of a config set *)

Lemma actual_in_formal_new (filename : string) : actual_in_formal (NewConfigSet filename).
Proof. unfold actual_in_formal. cbn. apply map_empty_subseteq. Qed.

Lemma actual_in_formal_Var f value name usage w f' w' :
  actual_in_formal f ->
  ConfigSet_Var f value name usage w = Return f' w' ->
  actual_in_formal f'.
Proof.
  unfold actual_in_formal, ConfigSet_Var. intros Hinv.
  destruct (formal f !! name) eqn:Hname; [discriminate|].
  intros [= <- _]. cbn [actual formal set_formal].
  apply insert_subseteq_r; [|assumption].
  eapply lookup_weaken_None; eassumption.
Qed.

Lemma actual_in_formal_Set f name value w f' err w' :
  actual_in_formal f ->
  ConfigSet_Set f name value w = Return (f', err) w' ->
  actual_in_formal f'.
Proof.
  unfold actual_in_formal. intros Hinv.
  destruct (formal f !! name) as [c|] eqn:Hname.
  - rewrite (ConfigSet_Set_registered _ _ _ _ _ Hname).
    destruct (Value_Set (Config_Value c) value (heap w)) as [h' [e|]];
      intros [= <- _ _]; [assumption|].
    cbn [actual formal set_actual]. by apply insert_subseteq_l.
  - rewrite ConfigSet_Set_unregistered by assumption.
    intros [= <- _ _]. cbn [actual formal set_formal].
    apply insert_subseteq_r; [|assumption].
    eapply lookup_weaken_None; eassumption.
Qed.

Lemma actual_in_formal_Load_line f line w f' w' :
  actual_in_formal f ->
  Load_line f line w = Return f' w' ->
  actual_in_formal f'.
Proof.
  unfold Load_line. intros Hinv.
  destruct (strings_Split _ _) as [|k [|v [|? ?]]]; try (by intros [= <- _]).
  destruct (ConfigSet_Set f _ _ w) as [[f1 [e|]] w1|] eqn:Hset; [| |discriminate];
    intros [= <- _]; eapply actual_in_formal_Set; eassumption.
Qed.

Lemma actual_in_formal_Load_lines lines f w f' w' :
  actual_in_formal f ->
  Load_lines f lines w = Return f' w' ->
  actual_in_formal f'.
Proof.
  revert f w. induction lines as [|line rest IH]; intros f w Hinv; cbn [Load_lines].
  - by intros [= <- _].
  - destruct (Load_line f line w) as [f1 w1|] eqn:Hline; [|discriminate].
    apply IH. eapply actual_in_formal_Load_line; eassumption.
Qed.

Lemma actual_in_formal_Load f w f' w' :
  actual_in_formal f ->
  ConfigSet_Load f w = Return f' w' ->
  actual_in_formal f'.
Proof.
  unfold ConfigSet_Load. intros Hinv.
  destruct (String.eqb (filename f) ""); [by intros [= <- _]|].
  destruct (os_Open _ _); [|by intros [= <- _]].
  by apply actual_in_formal_Load_lines.
Qed.

Lemma actual_in_formal_run_op o f w f' w' :
  actual_in_formal f ->
  run_op o f w = Return f' w' ->
  actual_in_formal f'.
Proof.
  intros Hinv. destruct o as [value name usage|name value| |p v]; cbn [run_op].
  - by apply actual_in_formal_Var.
  - destruct (ConfigSet_Set f name value w) as [[f1 err] w1|] eqn:Hset; [|discriminate].
    intros [= <- _]. eapply actual_in_formal_Set; eassumption.
  - by apply actual_in_formal_Load.
  - by intros [= <- _].
Qed.

Lemma actual_in_formal_run_ops ops f w :
  actual_in_formal f -> actual_in_formal (run_ops ops f w).1.
Proof.
  revert f w. induction ops as [|o ops IH]; intros f w Hinv; cbn [run_ops]; [assumption|].
  destruct (run_op o f w) as [f1 w1|] eqn:Hop; [|assumption].
  apply IH. eapply actual_in_formal_run_op; eassumption.
Qed.

(** C9: after any sequence of [Var] and [Set] calls (and of [Load] calls and
    assignments to bound variables) on a new set, every name of [actual] is
    a key of [formal]. *)
Theorem actual_names_are_formal_keys (ops : list op) (filename : string) (w : World) :
  dom (actual (run_ops ops (NewConfigSet filename) w).1)
    ⊆ dom (formal (run_ops ops (NewConfigSet filename) w).1).
Proof.
  apply subseteq_dom. apply actual_in_formal_run_ops, actual_in_formal_new.
Qed.

(** ** The text file codec *)

Lemma append_nil (b : string) : "" ++ b = b.
Proof. reflexivity. Qed.

Lemma append_cons (c : ascii) (a b : string) : String c a ++ b = String c (a ++ b).
Proof. reflexivity. Qed.

Lemma Split_go_no_sep (sep : ascii) (k cur : string) :
  count_byte sep k = 0%nat ->
  Split_go sep cur k = [String.rev_app cur k].
Proof.
  revert cur. induction k as [|c k IH]; intros cur Hk; cbn [Split_go count_byte] in *.
  - reflexivity.
  - destruct (Ascii.eqb c sep); [discriminate|]. by rewrite IH.
Qed.

Lemma Split_go_first_sep (sep : ascii) (k v cur : string) :
  count_byte sep k = 0%nat ->
  Split_go sep cur (k ++ String sep v) = String.rev_app cur k :: Split_go sep "" v.
Proof.
  revert cur. induction k as [|c k IH]; intros cur Hk; simpl in *.
  - by rewrite Ascii.eqb_refl.
  - destruct (Ascii.eqb c sep); [discriminate|]. by rewrite IH.
Qed.

(** A string with exactly one separator splits in the text before it and
    the text after it. *)
Lemma strings_Split_one_sep (sep : ascii) (k v : string) :
  count_byte sep k = 0%nat -> count_byte sep v = 0%nat ->
  strings_Split (k ++ String sep v) sep = [k; v].
Proof.
  intros Hk Hv. unfold strings_Split.
  by rewrite Split_go_first_sep, Split_go_no_sep.
Qed.

(** [Split] yields one piece more than there are separators. *)
Lemma Split_go_length (sep : ascii) (s cur : string) :
  List.length (Split_go sep cur s) = S (count_byte sep s).
Proof.
  revert cur. induction s as [|c s IH]; intros cur; cbn [Split_go count_byte].
  - reflexivity.
  - destruct (Ascii.eqb c sep); cbn [List.length]; by rewrite IH.
Qed.

Lemma strings_Split_length (s : string) (sep : ascii) :
  List.length (strings_Split s sep) = S (count_byte sep s).
Proof. apply Split_go_length. Qed.

(** The text up to the first [#]. *)
Lemma index_hash_absent (s : string) :
  count_byte "#" s = 0%nat -> String.index 0 "#" s = None.
Proof.
  induction s as [|c s IH]; cbn [count_byte String.index String.prefix]; [done|].
  intros Hc. destruct (Ascii.eqb_spec c "#") as [->|Hne]; [discriminate|].
  destruct (ascii_dec "#" c) as [<-|_]; [done|]. by rewrite IH.
Qed.

Lemma index_hash_first (a b : string) :
  count_byte "#" a = 0%nat ->
  String.index 0 "#" (a ++ String "#" b) = Some (String.length a).
Proof.
  induction a as [|c a IH]; rewrite ?append_nil, ?append_cons;
    cbn [count_byte String.index String.prefix String.length].
  - intros _. destruct (ascii_dec "#" "#"); [|done]. by destruct b.
  - intros Hc. destruct (Ascii.eqb_spec c "#") as [->|Hne]; [discriminate|].
    destruct (ascii_dec "#" c) as [<-|_]; [done|]. by rewrite IH.
Qed.

Lemma substring_prefix (a b : string) :
  String.substring 0 (String.length a) (a ++ b) = a.
Proof.
  induction a as [|c a IH]; rewrite ?append_nil, ?append_cons;
    cbn [String.substring String.length].
  - by destruct b.
  - by rewrite IH.
Qed.

(** [strip_comment] keeps a line without [#] and cuts any other at its
    first [#]. *)
Lemma strip_comment_spec (a : string) :
  count_byte "#" a = 0%nat ->
  strip_comment a = a /\ forall b, strip_comment (a ++ String "#" b) = a.
Proof.
  intros Ha. unfold strip_comment, strings_Index, slice_to. split.
  - by rewrite index_hash_absent.
  - intros b. rewrite index_hash_first by assumption.
    destruct (Z.ltb_spec (-1) (Z.of_nat (String.length a))); [|lia].
    rewrite Nat2Z.id. apply substring_prefix.
Qed.

(** Reversal and concatenation of strings. *)
Lemma append_assoc' (a b c : string) : (a ++ b) ++ c = a ++ (b ++ c).
Proof. induction a as [|x a IH]; rewrite ?append_nil, ?append_cons; congruence. Qed.

Lemma append_nil_r (a : string) : a ++ "" = a.
Proof. induction a as [|x a IH]; rewrite ?append_nil, ?append_cons; congruence. Qed.

Lemma rev_app_append (s1 s2 : string) : String.rev_app s1 s2 = String.rev s1 ++ s2.
Proof.
  unfold String.rev. revert s2.
  induction s1 as [|a s1 IH]; intros s2; cbn [String.rev_app]; [done|].
  rewrite (IH (String a s2)), (IH (String a "")), append_assoc'. reflexivity.
Qed.

Lemma rev_append (a b : string) : String.rev (a ++ b) = String.rev b ++ String.rev a.
Proof.
  induction a as [|x a IH]; rewrite ?append_nil, ?append_cons.
  - by rewrite append_nil_r.
  - unfold String.rev at 1 3. cbn [String.rev_app].
    rewrite !rev_app_append, IH, append_assoc'. reflexivity.
Qed.

Lemma rev_involutive' (s : string) : String.rev (String.rev s) = s.
Proof.
  induction s as [|x s IH]; [done|].
  unfold String.rev at 2. cbn [String.rev_app].
  rewrite rev_app_append, rev_append, IH. reflexivity.
Qed.

Lemma list_ascii_of_string_append (a b : string) :
  list_ascii_of_string (a ++ b) = (list_ascii_of_string a ++ list_ascii_of_string b)%list.
Proof.
  induction a as [|x a IH]; rewrite ?append_nil, ?append_cons; cbn; congruence.
Qed.

Lemma all_in_cutset_rev (cutset a : string) :
  all_in_cutset cutset a -> all_in_cutset cutset (String.rev a).
Proof.
  unfold all_in_cutset. induction a as [|x a IH]; intros Ha c; [done|].
  unfold String.rev. cbn [String.rev_app].
  rewrite rev_app_append, list_ascii_of_string_append, in_app_iff.
  intros [Hc|Hc].
  - apply IH; [|assumption]. intros c' Hc'. apply Ha. by right.
  - apply Ha. cbn in Hc |- *. tauto.
Qed.

Lemma trimLeftBytes_spec (cutset s : string) :
  exists a,
    s = a ++ trimLeftBytes cutset s /\
    all_in_cutset cutset a /\
    head_not_in_cutset cutset (trimLeftBytes cutset s).
Proof.
  induction s as [|c s (a & Hs & Ha & Hhead)]; cbn [trimLeftBytes].
  - exists "". repeat split. intros c [].
  - destruct (in_cutset cutset c) eqn:Hc.
    + exists (String c a). rewrite append_cons, <- Hs. repeat split; [|assumption].
      intros c' [<-|Hc']; [assumption|]. by apply Ha.
    + exists "". repeat split; [intros c' []|]. exact Hc.
Qed.

(** [strings.Trim] removes a run of cutset bytes at each end, and what is
    left neither begins nor ends with a cutset byte: every leading and every
    trailing quote goes, however many there are. *)
Lemma strings_Trim_spec (s cutset : string) :
  exists a b,
    s = a ++ strings_Trim s cutset ++ b /\
    all_in_cutset cutset a /\ all_in_cutset cutset b /\
    head_not_in_cutset cutset (strings_Trim s cutset) /\
    head_not_in_cutset cutset (String.rev (strings_Trim s cutset)).
Proof.
  unfold strings_Trim.
  destruct (trimLeftBytes_spec cutset (String.rev s)) as (a1 & Hr & Ha1 & Hh1).
  set (t1 := trimLeftBytes cutset (String.rev s)) in *.
  destruct (trimLeftBytes_spec cutset (String.rev t1)) as (a2 & Hu & Ha2 & Hh2).
  set (t2 := trimLeftBytes cutset (String.rev t1)) in *.
  exists a2, (String.rev a1). split; [|split; [assumption|split; [by apply all_in_cutset_rev|]]].
  - rewrite <- (rev_involutive' s), Hr, rev_append, Hu, append_assoc'. reflexivity.
  - split; [assumption|].
    assert (Ht1 : t1 = String.rev t2 ++ String.rev a2).
    { by rewrite <- (rev_involutive' t1), Hu, rev_append. }
    destruct (String.rev t2) as [|c r]; [done|].
    rewrite Ht1, append_cons in Hh1. exact Hh1.
Qed.

(** ** White space

    What [strings.TrimSpace] takes off, told in bytes. *)

Lemma trimLeftSpace_unfold (s : string) :
  trimLeftSpace s =
    match s with
    | EmptyString => ""
    | String c0 s1 =>
        if asciiSpace c0 then trimLeftSpace s1
        else match s1 with
             | EmptyString => s
             | String c1 s2 =>
                 if isSpace2 c0 c1 then trimLeftSpace s2
                 else match s2 with
                      | EmptyString => s
                      | String c2 s3 =>
                          if isSpace3 c0 c1 c2 then trimLeftSpace s3 else s
                      end
             end
    end.
Proof. by destruct s. Qed.

Lemma trimRightSpace_rev_unfold (r : string) :
  trimRightSpace_rev r =
    match r with
    | EmptyString => ""
    | String c0 r1 =>
        if asciiSpace c0 then trimRightSpace_rev r1
        else match r1 with
             | EmptyString => r
             | String c1 r2 =>
                 if isSpace2 c1 c0 then trimRightSpace_rev r2
                 else match r2 with
                      | EmptyString => r
                      | String c2 r3 =>
                          if isSpace3 c2 c1 c0 then trimRightSpace_rev r3 else r
                      end
             end
    end.
Proof. by destruct r. Qed.

Lemma ascii_of_byte (c : ascii) (n : Z) :
  byte_of c = n -> c = ascii_of_N (Z.to_N n).
Proof. intros <-. unfold byte_of. by rewrite N2Z.id, ascii_N_embedding. Qed.

Lemma rev_cons (c : ascii) (a : string) :
  String.rev (String c a) = String.rev a ++ String c "".
Proof. unfold String.rev at 1. cbn [String.rev_app]. apply rev_app_append. Qed.

Lemma join_app (l1 l2 : list string) : join (l1 ++ l2)%list = join l1 ++ join l2.
Proof.
  induction l1 as [|x l1 IH]; cbn [join foldr app]; [by rewrite append_nil|].
  fold (join (l1 ++ l2)%list) (join l1). by rewrite IH, append_assoc'.
Qed.

Lemma white_run_nil : white_run "".
Proof. exists []. by split. Qed.

Lemma white_run_cons (r a : string) :
  r ∈ unicode_White_Space -> white_run a -> white_run (r ++ a).
Proof.
  intros Hr (runes & Hall & ->). exists (r :: runes). split; [by constructor|reflexivity].
Qed.

Lemma white_run_snoc (a r : string) :
  white_run a -> r ∈ unicode_White_Space -> white_run (a ++ r).
Proof.
  intros (runes & Hall & ->) Hr. exists (runes ++ [r])%list. split.
  - apply Forall_app. split; [assumption|]. by constructor.
  - rewrite join_app. cbn [join foldr]. by rewrite append_nil_r.
Qed.

Ltac bytes_known :=
  repeat match goal with
    | H : _ /\ _ |- _ => destruct H
    | H : _ \/ _ |- _ => destruct H
    end;
  repeat match goal with
    | H : byte_of _ = _ |- _ => apply ascii_of_byte in H
    end;
  subst.

Lemma asciiSpace_white (c : ascii) :
  asciiSpace c = true -> String c "" ∈ unicode_White_Space.
Proof.
  unfold asciiSpace. cbv zeta. intros H.
  assert (Hb : byte_of c = 9 \/ byte_of c = 10 \/ byte_of c = 11 \/ byte_of c = 12 \/
               byte_of c = 13 \/ byte_of c = 32) by lia.
  clear H. bytes_known; apply list_elem_of_In; vm_compute; tauto.
Qed.

Lemma isSpace2_white (c0 c1 : ascii) :
  isSpace2 c0 c1 = true -> String c0 (String c1 "") ∈ unicode_White_Space.
Proof.
  unfold isSpace2. intros H.
  assert (Hb : byte_of c0 = 194 /\ (byte_of c1 = 133 \/ byte_of c1 = 160)) by lia.
  clear H. bytes_known; apply list_elem_of_In; vm_compute; tauto.
Qed.

Lemma isSpace3_white (c0 c1 c2 : ascii) :
  isSpace3 c0 c1 c2 = true -> String c0 (String c1 (String c2 "")) ∈ unicode_White_Space.
Proof.
  unfold isSpace3. cbv zeta. intros H.
  assert (Hb : (byte_of c0 = 225 /\ byte_of c1 = 154 /\ byte_of c2 = 128) \/
               (byte_of c0 = 226 /\ byte_of c1 = 128 /\
                (byte_of c2 = 128 \/ byte_of c2 = 129 \/ byte_of c2 = 130 \/
                 byte_of c2 = 131 \/ byte_of c2 = 132 \/ byte_of c2 = 133 \/
                 byte_of c2 = 134 \/ byte_of c2 = 135 \/ byte_of c2 = 136 \/
                 byte_of c2 = 137 \/ byte_of c2 = 138 \/ byte_of c2 = 168 \/
                 byte_of c2 = 169 \/ byte_of c2 = 175)) \/
               (byte_of c0 = 226 /\ byte_of c1 = 129 /\ byte_of c2 = 159) \/
               (byte_of c0 = 227 /\ byte_of c1 = 128 /\ byte_of c2 = 128)) by lia.
  clear H. bytes_known; apply list_elem_of_In; vm_compute; tauto.
Qed.

(** The members of the table, one by one. *)
Lemma white_space_cases (r : string) (P : string -> Prop) :
  r ∈ unicode_White_Space ->
  Forall P unicode_White_Space -> P r.
Proof. intros Hr HP. by apply (proj1 (Forall_forall P _) HP). Qed.

Lemma begins_with_space_head (t : string) :
  begins_with_space t -> head_space t = true.
Proof.
  intros (r & rest & Hr & ->). revert rest.
  apply (white_space_cases r); [exact Hr|].
  repeat constructor; intros [|c1 [|c2 rest]]; reflexivity.
Qed.

Lemma ends_with_space_last (t : string) :
  ends_with_space t -> last_space_rev (String.rev t) = true.
Proof.
  intros (r & rest & Hr & ->). rewrite rev_append.
  generalize (String.rev rest). clear rest.
  apply (white_space_cases r); [exact Hr|].
  repeat constructor; intros [|c1 [|c2 rest]]; reflexivity.
Qed.

Lemma trimLeftSpace_spec (n : nat) (s : string) :
  (String.length s <= n)%nat ->
  exists a,
    s = a ++ trimLeftSpace s /\ white_run a /\ head_space (trimLeftSpace s) = false.
Proof.
  revert s. induction n as [|n IH]; intros s Hn.
  { destruct s; [|cbn in Hn; lia]. exists "". split; [done|]. split; [apply white_run_nil|done]. }
  destruct s as [|c0 s1]; [exists ""; split; [done|]; split; [apply white_run_nil|done]|].
  rewrite trimLeftSpace_unfold. cbn [String.length] in Hn.
  destruct (asciiSpace c0) eqn:H1.
  { destruct (IH s1 ltac:(lia)) as (a & Hs & Ha & Hh).
    exists (String c0 "" ++ a). rewrite append_assoc', <- Hs. split; [done|].
    split; [|exact Hh]. apply white_run_cons; [by apply asciiSpace_white|exact Ha]. }
  destruct s1 as [|c1 s2].
  { exists "". split; [done|]. split; [apply white_run_nil|exact H1]. }
  cbn [String.length] in Hn.
  destruct (isSpace2 c0 c1) eqn:H2.
  { destruct (IH s2 ltac:(lia)) as (a & Hs & Ha & Hh).
    exists (String c0 (String c1 "") ++ a). rewrite append_assoc', <- Hs. split; [done|].
    split; [|exact Hh]. apply white_run_cons; [by apply isSpace2_white|exact Ha]. }
  destruct s2 as [|c2 s3].
  { exists "". split; [done|]. split; [apply white_run_nil|].
    cbn [head_space]. by rewrite H1, H2. }
  cbn [String.length] in Hn.
  destruct (isSpace3 c0 c1 c2) eqn:H3.
  { destruct (IH s3 ltac:(lia)) as (a & Hs & Ha & Hh).
    exists (String c0 (String c1 (String c2 "")) ++ a). rewrite append_assoc', <- Hs.
    split; [done|].
    split; [|exact Hh]. apply white_run_cons; [by apply isSpace3_white|exact Ha]. }
  exists "". split; [done|]. split; [apply white_run_nil|].
  cbn [head_space]. by rewrite H1, H2, H3.
Qed.

Lemma trimRightSpace_rev_spec (n : nat) (r : string) :
  (String.length r <= n)%nat ->
  exists a,
    r = a ++ trimRightSpace_rev r /\ white_run (String.rev a) /\
    last_space_rev (trimRightSpace_rev r) = false.
Proof.
  revert r. induction n as [|n IH]; intros r Hn.
  { destruct r; [|cbn in Hn; lia]. exists "". split; [done|]. split; [apply white_run_nil|done]. }
  destruct r as [|c0 r1]; [exists ""; split; [done|]; split; [apply white_run_nil|done]|].
  rewrite trimRightSpace_rev_unfold. cbn [String.length] in Hn.
  destruct (asciiSpace c0) eqn:H1.
  { destruct (IH r1 ltac:(lia)) as (a & Hs & Ha & Hh).
    exists (String c0 "" ++ a). rewrite append_assoc', <- Hs. split; [done|].
    split; [|exact Hh]. rewrite rev_append.
    apply white_run_snoc; [exact Ha|by apply asciiSpace_white]. }
  destruct r1 as [|c1 r2].
  { exists "". split; [done|]. split; [apply white_run_nil|exact H1]. }
  cbn [String.length] in Hn.
  destruct (isSpace2 c1 c0) eqn:H2.
  { destruct (IH r2 ltac:(lia)) as (a & Hs & Ha & Hh).
    exists (String c0 (String c1 "") ++ a). rewrite append_assoc', <- Hs. split; [done|].
    split; [|exact Hh]. rewrite rev_append.
    apply white_run_snoc; [exact Ha|by apply isSpace2_white]. }
  destruct r2 as [|c2 r3].
  { exists "". split; [done|]. split; [apply white_run_nil|].
    cbn [last_space_rev]. by rewrite H1, H2. }
  cbn [String.length] in Hn.
  destruct (isSpace3 c2 c1 c0) eqn:H3.
  { destruct (IH r3 ltac:(lia)) as (a & Hs & Ha & Hh).
    exists (String c0 (String c1 (String c2 "")) ++ a). rewrite append_assoc', <- Hs.
    split; [done|].
    split; [|exact Hh]. rewrite rev_append.
    apply white_run_snoc; [exact Ha|by apply isSpace3_white]. }
  exists "". split; [done|]. split; [apply white_run_nil|].
  cbn [last_space_rev]. by rewrite H1, H2, H3.
Qed.

(** [strings.TrimSpace] takes a run of white-space runes off each end, and
    what is left neither begins nor ends with a white-space rune. *)
Lemma strings_TrimSpace_spec (s : string) :
  exists a b,
    s = a ++ strings_TrimSpace s ++ b /\
    white_run a /\ white_run b /\
    ~ begins_with_space (strings_TrimSpace s) /\
    ~ ends_with_space (strings_TrimSpace s).
Proof.
  unfold strings_TrimSpace.
  destruct (trimLeftSpace_spec _ s ltac:(reflexivity)) as (a & Hs & Ha & Hhead).
  set (t1 := trimLeftSpace s) in *.
  destruct (trimRightSpace_rev_spec _ (String.rev t1) ltac:(reflexivity))
    as (a2 & Hr & Ha2 & Hlast).
  set (t2 := trimRightSpace_rev (String.rev t1)) in *.
  assert (Ht1 : t1 = String.rev t2 ++ String.rev a2).
  { by rewrite <- (rev_involutive' t1), Hr, rev_append. }
  exists a, (String.rev a2). split; [by rewrite <- Ht1|].
  split; [exact Ha|]. split; [exact Ha2|]. split.
  - intros (r & rest & Hin & Heq).
    assert (Hbegin : begins_with_space t1).
    { exists r, (rest ++ String.rev a2). split; [exact Hin|].
      by rewrite Ht1, Heq, append_assoc'. }
    apply begins_with_space_head in Hbegin. congruence.
  - intros Hend. apply ends_with_space_last in Hend.
    rewrite rev_involutive' in Hend. congruence.
Qed.

(** C4, as the code has it: when the remainder of a line after comment
    stripping has exactly one [=], the text before it and the text after it
    are trimmed of surrounding white space, every leading and every trailing
    double quote is taken off the value, and [Set(key, value)] is called,
    its error printed; a remainder with no [=] or with more than one is
    ignored, and the line changes nothing.  White space is what
    [unicode.IsSpace] accepts: tab, line feed, vertical tab, form feed,
    carriage return, space, U+0085, U+00A0 and the other Unicode spaces;
    trimming takes a run of such runes off each end and leaves a text that
    neither begins nor ends with one. *)
Theorem Load_line_single_equals (f : ConfigSet) (line : string) (w : World) :
  (forall k v,
     strip_comment line = k ++ String "=" v ->
     count_byte "=" k = 0%nat -> count_byte "=" v = 0%nat ->
     Load_line f line w =
       match ConfigSet_Set f (strings_TrimSpace k)
               (strings_Trim (strings_TrimSpace v) (String quote "")) w with
       | Return (f', Some err) w' =>
           Return f' (print (Printf ("f.Set returned err=%v" ++ nl) [ArgError err]) w')
       | Return (f', None) w' => Return f' w'
       | Panic msg w' => Panic msg w'
       end) /\
  (count_byte "=" (strip_comment line) <> 1%nat -> Load_line f line w = Return f w) /\
  (forall v, exists a b,
     v = a ++ strings_Trim v (String quote "") ++ b /\
     all_in_cutset (String quote "") a /\ all_in_cutset (String quote "") b /\
     head_not_in_cutset (String quote "") (strings_Trim v (String quote "")) /\
     head_not_in_cutset (String quote "") (String.rev (strings_Trim v (String quote "")))) /\
  (forall s, exists a b,
     s = a ++ strings_TrimSpace s ++ b /\
     white_run a /\ white_run b /\
     ~ begins_with_space (strings_TrimSpace s) /\
     ~ ends_with_space (strings_TrimSpace s)).
Proof.
  split; [|split; [|split]].
  - intros k v Hline Hk Hv. unfold Load_line.
    rewrite Hline, strings_Split_one_sep by assumption. reflexivity.
  - intros Hcount. unfold Load_line.
    pose proof (strings_Split_length (strip_comment line) "=") as Hlen.
    destruct (strings_Split (strip_comment line) "=") as [|k [|v [|? ?]]];
      try reflexivity.
    cbn [List.length] in Hlen. congruence.
  - intros v. apply strings_Trim_spec.
  - apply strings_TrimSpace_spec.
Qed.

Lemma Load_line_single_equals_witness :
  strip_comment tabbed_line = tabbed_key ++ String "=" tabbed_value /\
  count_byte "=" tabbed_key = 0%nat /\ count_byte "=" tabbed_value = 0%nat /\
  strings_TrimSpace tabbed_key = "pie" /\
  strings_TrimSpace tabbed_value = quoted "3.14" /\
  Load_line (NewConfigSet "") tabbed_line w_empty =
    match ConfigSet_Set (NewConfigSet "") "pie" "3.14" w_empty with
    | Return (f', Some err) w' =>
        Return f' (print (Printf ("f.Set returned err=%v" ++ nl) [ArgError err]) w')
    | Return (f', None) w' => Return f' w'
    | Panic msg w' => Panic msg w'
    end.
Proof.
  split; [reflexivity|]. split; [reflexivity|]. split; [reflexivity|].
  split; [reflexivity|]. split; [reflexivity|].
  exact (proj1 (Load_line_single_equals (NewConfigSet "") tabbed_line w_empty)
           tabbed_key tabbed_value eq_refl eq_refl eq_refl).
Defined.

(** C4 fails as stated: a value inside two pairs of quotes loses both pairs,
    not one layer, and a remainder with two [=] is not split at the first
    one but ignored. *)
Lemma Load_line_strips_all_quotes_ignores_second_equals :
  (exists f' w',
     Load_line (NewConfigSet "") ("k = " ++ quoted (quoted "v")) w_empty = Return f' w' /\
     ConfigSet_Lookup f' "k" = Some (mkConfig "k" "" (stringValue 0%nat) "v") /\
     heap w' = [CString "v"] /\
     "v" <> quoted "v") /\
  strip_comment "a=b=c" = "a=b=c" /\
  Load_line (NewConfigSet "") "a=b=c" w_empty = Return (NewConfigSet "") w_empty.
Proof.
  split; [|split; reflexivity].
  eexists _, _. split; [reflexivity|]. split; [reflexivity|]. split; [reflexivity|].
  discriminate.
Qed.

(** ** [Load] *)

Lemma Load_line_returns (f : ConfigSet) (line : string) (w : World) :
  exists f' w', Load_line f line w = Return f' w'.
Proof.
  unfold Load_line.
  destruct (strings_Split _ _) as [|k [|v [|? ?]]]; eauto.
  destruct (ConfigSet_Set_returns f (strings_TrimSpace k)
              (strings_Trim (strings_TrimSpace v) (String quote "")) w)
    as (f' & [e|] & w' & ->); eauto.
Qed.

Lemma Load_lines_returns (lines : list string) (f : ConfigSet) (w : World) :
  exists f' w', Load_lines f lines w = Return f' w'.
Proof.
  revert f w. induction lines as [|line rest IH]; intros f w; cbn [Load_lines]; [eauto|].
  destruct (Load_line_returns f line w) as (f1 & w1 & ->). apply IH.
Qed.

(** [Load] always returns: it has no error result and it does not panic. *)
Lemma ConfigSet_Load_returns (f : ConfigSet) (w : World) :
  exists f' w', ConfigSet_Load f w = Return f' w'.
Proof.
  unfold ConfigSet_Load. destruct (String.eqb (filename f) ""); [eauto|].
  destruct (os_Open _ _); [apply Load_lines_returns|eauto].
Qed.






(** ** [Save] *)

(** C1 fails on the code: the set [f] has the file name [out.conf] and one
    registered config, [x]; the default set has none.  [f.Save()] creates
    [out.conf] and writes no line, because the visitor runs over the default
    set; with the roles of the two sets exchanged, the line of [x] is
    written to the file of a set that has no config. *)
Theorem Save_visits_default_set :
  ConfigSet_Lookup sample_named.1.1 "x" = Some (mkConfig "x" "an x" (stringValue 0%nat) "1") /\
  filename sample_named.1.1 = "out.conf" /\
  (exists w',
     ConfigSet_Save (NewConfigSet "") sample_named.1.1 sample_named.2 = Return tt w' /\
     files w' !! "out.conf" = Some "") /\
  (exists w',
     ConfigSet_Save sample_named.1.1 (NewConfigSet "other.conf") sample_named.2 = Return tt w' /\
     files w' !! "other.conf" = Some ("x=1 # an x" ++ nl)).
Proof.
  split; [reflexivity|]. split; [reflexivity|].
  split; eexists; (split; [reflexivity|]); reflexivity.
Qed.

(** ** The command line *)

(** C3: on the registry with a bool [b] (false), an int [n] (0) and a string
    [s] (empty), parsing [-b -n=42 -s hello -- pos1 pos2] sets [b] to true
    without taking a token for it, [n] to 42 and [s] to [hello], and leaves
    the positional arguments [pos1] and [pos2]; the [--] is not among
    them. *)
Theorem Parse_scenario :
  match scenario_registry with
  | None => False
  | Some (f, w, pb, pn, ps) =>
      load_bool (heap w) pb = false /\
      load_int (heap w) pn = 0 /\
      load_string (heap w) ps = "" /\
      match Parse f scenario_args w with
      | Panic _ _ => False
      | Return (f', positional, err) w' =>
          err = None /\
          positional = ["pos1"; "pos2"] /\
          load_bool (heap w') pb = true /\
          load_int (heap w') pn = 42 /\
          load_string (heap w') ps = "hello" /\
          dom (actual f') = {["b"; "n"; "s"]}
      end
  end.
Proof.
  vm_compute. repeat split.
Qed.

(** ** Rendering and parsing of integers and booleans *)

Lemma strconv_ParseBool_FormatBool (b : bool) :
  strconv_ParseBool (strconv_FormatBool b) = (b, None).
Proof. by destruct b. Qed.

Lemma byte_of_digit_char (d : Z) : 0 <= d < 10 -> byte_of (digit_char d) = 48 + d.
Proof.
  intros Hd.
  assert (Hcases : d = 0 \/ d = 1 \/ d = 2 \/ d = 3 \/ d = 4 \/ d = 5 \/ d = 6 \/ d = 7
                   \/ d = 8 \/ d = 9) by lia.
  repeat (destruct Hcases as [->|Hcases]; [reflexivity|]). by subst.
Qed.

(** One round of the digit loop of [ParseUint] in base 10 on a decimal
    digit that does not overflow. *)
Lemma ParseUint_loop_digit (base0 : bool) (d n : Z) (s : string) (underscores : bool) :
  0 <= d < 10 -> 0 <= n -> n * 10 + d < 2 ^ 64 ->
  ParseUint_loop 10 base0 (maxUint64 / 10 + 1) (2 ^ 64 - 1)
    (String (digit_char d) s) n underscores =
  ParseUint_loop 10 base0 (maxUint64 / 10 + 1) (2 ^ 64 - 1) s (n * 10 + d) underscores.
Proof.
  intros Hd Hn Hfit. cbn [ParseUint_loop]. rewrite byte_of_digit_char by assumption.
  replace (48 + d =? 95) with false by lia. cbn [andb].
  replace ((48 <=? 48 + d) && (48 + d <=? 57)) with true by lia.
  replace (48 + d - 48) with d by lia.
  replace (10 <=? d) with false by lia.
  change (maxUint64 / 10 + 1) with 1844674407370955162.
  change (2 ^ 64) with 18446744073709551616 in *.
  replace (1844674407370955162 <=? n) with false by lia.
  rewrite (Z.mod_small (n * 10 + d)) by lia.
  replace (n * 10 + d <? n * 10) with false by lia.
  replace (18446744073709551616 - 1 <? n * 10 + d) with false by lia.
  reflexivity.
Qed.

(** Parsing the digits that [formatBits] wrote for [u] yields [u]. *)
Lemma ParseUint_loop_formatBits (base0 : bool) (fuel : nat) (u : Z) (acc : string) :
  0 <= u < 2 ^ 64 -> u < 10 ^ Z.of_nat fuel ->
  ParseUint_loop 10 base0 (maxUint64 / 10 + 1) (2 ^ 64 - 1)
    (formatBits_loop fuel 10 u acc) 0 false =
  ParseUint_loop 10 base0 (maxUint64 / 10 + 1) (2 ^ 64 - 1) acc u false.
Proof.
  revert u acc. induction fuel as [|k IH]; intros u acc Hu Hfuel.
  - cbn in Hfuel. replace u with 0 by lia. reflexivity.
  - cbn [formatBits_loop]. destruct (Z.ltb_spec u 10) as [Hsmall|Hbig].
    + rewrite Z.mod_small by lia.
      rewrite ParseUint_loop_digit by lia. f_equal.
    + assert (Hdiv : 0 <= u / 10 < 2 ^ 64).
      { split; [apply Z.div_pos; lia|]. apply Z.div_lt_upper_bound; lia. }
      assert (Hdivk : u / 10 < 10 ^ Z.of_nat k).
      { apply Z.div_lt_upper_bound; [lia|].
        rewrite Nat2Z.inj_succ, Z.pow_succ_r in Hfuel by lia. exact Hfuel. }
      rewrite IH by assumption.
      pose proof (Z.mod_pos_bound u 10 ltac:(lia)) as Hmod.
      pose proof (Z.div_mod u 10 ltac:(lia)) as Hdm.
      rewrite ParseUint_loop_digit by lia. f_equal. lia.
Qed.

(** The first digit that [formatBits] writes is not [0], unless the number
    is 0. *)
Lemma formatBits_loop_head (fuel : nat) (u : Z) (acc : string) :
  0 <= u -> u < 10 ^ Z.of_nat (S fuel) ->
  exists d rest,
    formatBits_loop (S fuel) 10 u acc = String (digit_char d) rest /\
    0 <= d < 10 /\ (0 < u -> d <> 0).
Proof.
  revert u acc. induction fuel as [|k IH]; intros u acc Hu Hfuel.
  - change (10 ^ Z.of_nat 1) with 10 in Hfuel. cbn [formatBits_loop].
    replace (u <? 10) with true by lia. rewrite Z.mod_small by lia.
    exists u, acc. split; [reflexivity|]. lia.
  - cbn [formatBits_loop]. destruct (Z.ltb_spec u 10) as [Hsmall|Hbig].
    + rewrite Z.mod_small by lia. exists u, acc. split; [reflexivity|]. lia.
    + assert (Hdiv : 0 < u / 10) by (apply Z.div_str_pos; lia).
      assert (Hdivk : u / 10 < 10 ^ Z.of_nat (S k)).
      { apply Z.div_lt_upper_bound; [lia|].
        rewrite (Nat2Z.inj_succ (S k)), Z.pow_succ_r in Hfuel by lia. exact Hfuel. }
      destruct (IH (u / 10) (String (digit_char (u mod 10)) acc) ltac:(lia) Hdivk)
        as (d & rest & Heq & Hd & Hnz).
      exists d, rest. split; [exact Heq|]. split; [assumption|]. intros _. apply Hnz. lia.
Qed.

(** [ParseUint(FormatUint(u, 10), 0, 64)] is [u] for every [uint64]. *)
Lemma strconv_ParseUint_FormatUint (u : Z) :
  0 <= u < 2 ^ 64 ->
  strconv_ParseUint (strconv_FormatUint u 10) 0 64 = (u, None).
Proof.
  intros Hu. unfold strconv_FormatUint, formatBits.
  assert (Hfuel : u < 10 ^ Z.of_nat 64).
  { change (2 ^ 64) with 18446744073709551616 in Hu.
    change (10 ^ Z.of_nat 64) with
      10000000000000000000000000000000000000000000000000000000000000000. lia. }
  destruct (Z.eq_dec u 0) as [->|Hnz]; [reflexivity|].
  destruct (formatBits_loop_head 63 u "" ltac:(lia) Hfuel) as (d & rest & Heq & Hd & Hdnz).
  pose proof (ParseUint_loop_formatBits true 64 u "" Hu Hfuel) as Hloop.
  rewrite Heq in Hloop |- *. unfold strconv_ParseUint.
  rewrite byte_of_digit_char by assumption.
  replace (48 + d =? 48) with false by lia.
  cbn [Z.eqb Z.leb Z.compare andb orb Z.ltb negb IntSize].
  rewrite Hloop. reflexivity.
Qed.

Lemma mod_2_64_negative (i : Z) :
  - 2 ^ 64 <= i < 0 -> i mod 2 ^ 64 = i + 2 ^ 64.
Proof.
  change (2 ^ 64) with 18446744073709551616. intros Hi.
  symmetry. apply Z.mod_unique with (q := -1); lia.
Qed.

Lemma to_int64_small (i : Z) : 0 <= i < 2 ^ 63 -> to_int64 i = i.
Proof.
  unfold to_int64. change (2 ^ 63) with 9223372036854775808.
  change (2 ^ 64) with 18446744073709551616. intros Hi.
  rewrite Z.mod_small by lia. by replace (i <? 9223372036854775808) with true by lia.
Qed.

Lemma to_int64_negative (i : Z) : - 2 ^ 63 <= i < 0 -> to_int64 i = i.
Proof.
  unfold to_int64. intros Hi. rewrite mod_2_64_negative.
  2:{ revert Hi. change (2 ^ 63) with 9223372036854775808.
      change (2 ^ 64) with 18446744073709551616. lia. }
  revert Hi. change (2 ^ 63) with 9223372036854775808.
  change (2 ^ 64) with 18446744073709551616. intros Hi.
  replace (i + 18446744073709551616 <? 9223372036854775808) with false by lia. lia.
Qed.

(** [ParseInt(FormatInt(i, 10), 0, 64)] is [i] for every [int64]. *)
Lemma strconv_ParseInt_FormatInt (i : Z) :
  - 2 ^ 63 <= i < 2 ^ 63 ->
  strconv_ParseInt (strconv_FormatInt i 10) 0 64 = (i, None).
Proof.
  intros Hi. unfold strconv_FormatInt, formatBits.
  assert (H63 : 2 ^ 63 = 9223372036854775808) by reflexivity.
  assert (H64 : 2 ^ 64 = 18446744073709551616) by reflexivity.
  destruct (Z.ltb_spec i 0) as [Hneg|Hpos].
  - assert (Hu : to_uint64 (- to_uint64 i) = - i).
    { unfold to_uint64. rewrite (mod_2_64_negative i) by lia.
      replace (- (i + 2 ^ 64)) with (- i - 2 ^ 64) by lia.
      symmetry. apply Z.mod_unique with (q := -1); lia. }
    rewrite Hu. unfold strconv_ParseInt.
    change (byte_of "-" =? 43) with false. change (byte_of "-" =? 45) with true. cbv iota.
    change (formatBits_loop 64 10 (- i) "") with (strconv_FormatUint (- i) 10).
    rewrite strconv_ParseUint_FormatUint by lia.
    cbn [not_ErrRange negb andb Z.eqb IntSize].
    change (2 ^ (64 - 1)) with (2 ^ 63).
    replace (2 ^ 63 <? - i) with false by lia.
    f_equal. destruct (Z.eq_dec (- i) (2 ^ 63)) as [Hmin|Hnmin].
    + rewrite Hmin. replace i with (- 2 ^ 63) by lia. reflexivity.
    + rewrite (to_int64_small (- i)) by lia.
      replace (- - i) with i by lia. apply to_int64_negative. lia.
  - assert (Hu : to_uint64 i = i) by (unfold to_uint64; apply Z.mod_small; lia).
    rewrite Hu.
    pose proof (strconv_ParseUint_FormatUint i ltac:(lia)) as Hparse.
    unfold strconv_FormatUint, formatBits in Hparse.
    destruct (formatBits_loop_head 63 i "" ltac:(lia)) as (d & rest & Heq & Hd & _).
    { change (10 ^ Z.of_nat 64) with
        10000000000000000000000000000000000000000000000000000000000000000. lia. }
    rewrite Heq in Hparse |- *. unfold strconv_ParseInt.
    rewrite byte_of_digit_char by assumption.
    replace (48 + d =? 43) with false by lia. replace (48 + d =? 45) with false by lia.
    rewrite Hparse. cbn [not_ErrRange negb andb Z.eqb IntSize].
    change (2 ^ (64 - 1)) with (2 ^ 63).
    replace (2 ^ 63 <=? i) with false by lia.
    f_equal. apply to_int64_small. lia.
Qed.

(** ** Round trips of the built-in values *)

Lemma store_same (h : list cell) (p : loc) (v : cell) :
  h !! p = Some v -> store h p v = h.
Proof. apply list_insert_id. Qed.

(** For a bool, int, int64, uint or uint64 cell that holds a value of its
    type, [Set] on the text that [String] renders succeeds and leaves the
    heap as it was, so the cell holds the same value and renders the same
    text again. *)
Theorem integer_values_round_trip (h : list cell) (p : loc) :
  (forall b, h !! p = Some (CBool b) ->
     Value_Set (boolValue p) (Value_String (boolValue p) h) h = (h, None)) /\
  (forall i, h !! p = Some (CInt i) -> - 2 ^ 63 <= i < 2 ^ 63 ->
     Value_Set (intValue p) (Value_String (intValue p) h) h = (h, None)) /\
  (forall i, h !! p = Some (CInt64 i) -> - 2 ^ 63 <= i < 2 ^ 63 ->
     Value_Set (int64Value p) (Value_String (int64Value p) h) h = (h, None)) /\
  (forall u, h !! p = Some (CUint u) -> 0 <= u < 2 ^ 64 ->
     Value_Set (uintValue p) (Value_String (uintValue p) h) h = (h, None)) /\
  (forall u, h !! p = Some (CUint64 u) -> 0 <= u < 2 ^ 64 ->
     Value_Set (uint64Value p) (Value_String (uint64Value p) h) h = (h, None)).
Proof.
  repeat split.
  - intros b Hp. cbn [Value_Set Value_String boolValue].
    unfold boolValue_Set, boolValue_String, load_bool. rewrite Hp.
    rewrite strconv_ParseBool_FormatBool. by rewrite store_same.
  - intros i Hp Hi. cbn [Value_Set Value_String intValue].
    unfold intValue_Set, intValue_String, load_int, strconv_Itoa. rewrite Hp.
    rewrite strconv_ParseInt_FormatInt by assumption. by rewrite store_same.
  - intros i Hp Hi. cbn [Value_Set Value_String int64Value].
    unfold int64Value_Set, int64Value_String, load_int64. rewrite Hp.
    rewrite strconv_ParseInt_FormatInt by assumption. by rewrite store_same.
  - intros u Hp Hu. cbn [Value_Set Value_String uintValue].
    unfold uintValue_Set, uintValue_String, load_uint. rewrite Hp.
    rewrite strconv_ParseUint_FormatUint by assumption. by rewrite store_same.
  - intros u Hp Hu. cbn [Value_Set Value_String uint64Value].
    unfold uint64Value_Set, uint64Value_String, load_uint64. rewrite Hp.
    rewrite strconv_ParseUint_FormatUint by assumption. by rewrite store_same.
Qed.

Lemma integer_values_round_trip_witness :
  Value_String (int64Value 0%nat) [CInt64 (- 2 ^ 63)] = "-9223372036854775808" /\
  Value_Set (int64Value 0%nat) "-9223372036854775808" [CInt64 (- 2 ^ 63)] =
    ([CInt64 (- 2 ^ 63)], None).
Proof.
  split; [reflexivity|].
  exact (proj1 (proj2 (proj2 (integer_values_round_trip [CInt64 (- 2 ^ 63)] 0%nat)))
           (- 2 ^ 63) eq_refl ltac:(split; [reflexivity|reflexivity])).
Defined.

(** ** What [Save] writes *)

Lemma names_of_values (m : gmap string Config) :
  keys_are_names m ->
  Config_Name <$> (map_to_list m).*2 = (map_to_list m).*1.
Proof.
  intros Hm. rewrite <- list_fmap_compose. apply list_eq_Forall2.
  apply Forall2_fmap, Forall_Forall2_diag, Forall_forall.
  intros [k c] Hin. apply elem_of_map_to_list in Hin. cbn. by apply Hm.
Qed.

Lemma lookups_of_keys (m : gmap string Config) (names : list string) :
  keys_are_names m ->
  Forall (fun k => is_Some (m !! k)) names ->
  exists cs,
    (fun name => m !! name) <$> names = Some <$> cs /\
    Config_Name <$> cs = names /\
    Forall (fun c => m !! Config_Name c = Some c) cs.
Proof.
  intros Hm. induction 1 as [|k names [c Hc] _ (cs & Hcs & Hnames & Hall)].
  - by exists [].
  - exists (c :: cs). cbn [fmap list_fmap]. rewrite Hc.
    pose proof (Hm _ _ Hc) as Hk. split; [|split].
    + f_equal. exact Hcs.
    + cbn. by rewrite Hk, Hnames.
    + constructor; [by rewrite Hk|assumption].
Qed.

(** [sortConfigs] on a map whose keys are the names of its configs: every
    config of the map once, by increasing name. *)
Lemma sortConfigs_spec (m : gmap string Config) :
  keys_are_names m ->
  exists cs,
    sortConfigs m = Some <$> cs /\
    Config_Name <$> cs ≡ₚ (map_to_list m).*1 /\
    Sorted String.le (Config_Name <$> cs) /\
    Forall (fun c => m !! Config_Name c = Some c) cs.
Proof.
  intros Hm. unfold sortConfigs. rewrite names_of_values by assumption.
  set (sorted := merge_sort String.le (map_to_list m).*1).
  assert (Hperm : sorted ≡ₚ (map_to_list m).*1) by apply merge_sort_Permutation.
  assert (Hsorted : Sorted String.le sorted) by apply (Sorted_merge_sort String.le).
  destruct (lookups_of_keys m sorted Hm) as (cs & Hcs & Hnames & Hall).
  { apply Forall_forall. intros k Hk. rewrite Hperm in Hk.
    apply list_elem_of_fmap in Hk as ([k' c] & -> & Hin).
    apply elem_of_map_to_list in Hin. cbn. eauto. }
  exists cs. rewrite Hnames. auto.
Qed.

Lemma visit_each_Save_visitor (out : string) (cs : list Config) (w : World) (c0 : string) :
  files w !! out = Some c0 ->
  exists w',
    visit_each (Save_visitor out) (Some <$> cs) w = Return tt w' /\
    heap w' = heap w /\ stdout w' = stdout w /\ denied w' = denied w /\
    files w' !! out = Some (c0 ++ join (Save_line (heap w) <$> cs)).
Proof.
  revert w c0. induction cs as [|c cs IH]; intros w c0 Hfile; cbn [fmap list_fmap visit_each].
  - exists w. cbn [join foldr]. by rewrite append_nil_r.
  - cbn [Save_visitor].
    destruct (IH (write_file out (Save_line (heap w) c) w) (c0 ++ Save_line (heap w) c))
      as (w' & Hvisit & Hheap & Hout & Hden & Hfiles).
    { unfold write_file. cbn [files]. rewrite lookup_insert_eq, Hfile. reflexivity. }
    exists w'. split; [exact Hvisit|]. cbn [heap write_file] in *.
    split; [assumption|]. split; [assumption|]. split; [assumption|].
    rewrite Hfiles. cbn [join foldr]. by rewrite append_assoc'.
Qed.

(** Where [Save] has a file name and can create the file, the file holds
    one line [name=value # usage] for every config registered in the
    default set, by increasing name; the set [f] gives the file name only.
    For [f] the default set itself, these are the configs of [f]. *)
Theorem ConfigSet_Save_writes_default_set (Configuration f : ConfigSet) (w : World) :
  keys_are_names (formal Configuration) ->
  filename f <> "" ->
  filename f ∉ denied w ->
  exists cs w',
    ConfigSet_Save Configuration f w = Return tt w' /\
    Config_Name <$> cs ≡ₚ (map_to_list (formal Configuration)).*1 /\
    Sorted String.le (Config_Name <$> cs) /\
    Forall (fun c => formal Configuration !! Config_Name c = Some c) cs /\
    files w' !! filename f = Some (join (Save_line (heap w) <$> cs)) /\
    heap w' = heap w.
Proof.
  intros Hkeys Hname Hcreate. unfold ConfigSet_Save, VisitAll, ConfigSet_VisitAll.
  apply String.eqb_neq in Hname. rewrite Hname.
  unfold os_Create. cbn [denied print]. rewrite decide_False by assumption.
  destruct (sortConfigs_spec _ Hkeys) as (cs & -> & Hperm & Hsorted & Hall).
  match goal with |- context [visit_each _ _ ?w0] => set (w1 := w0) end.
  destruct (visit_each_Save_visitor (filename f) cs w1 "") as (w' & -> & Hheap & _ & _ & Hfile).
  { unfold w1. cbn [files]. apply lookup_insert_eq. }
  exists cs. eexists. split; [reflexivity|]. cbn [files heap print].
  rewrite Hfile, Hheap. unfold w1. cbn [heap]. rewrite append_nil. auto.
Qed.

Lemma ConfigSet_Save_writes_default_set_witness :
  keys_are_names (formal sample_named.1.1) /\
  filename sample_named.1.1 <> "" /\
  (filename sample_named.1.1 ∉ denied sample_named.2) /\
  exists cs w',
    Save sample_named.1.1 sample_named.2 = Return tt w' /\
    Config_Name <$> cs ≡ₚ (map_to_list (formal sample_named.1.1)).*1 /\
    Sorted String.le (Config_Name <$> cs) /\
    Forall (fun c => formal sample_named.1.1 !! Config_Name c = Some c) cs /\
    files w' !! filename sample_named.1.1 = Some (join (Save_line (heap sample_named.2) <$> cs)) /\
    heap w' = heap sample_named.2.
Proof.
  assert (Hkeys : keys_are_names (formal sample_named.1.1)).
  { intros k c. change (formal sample_named.1.1)
      with (<["x" := mkConfig "x" "an x" (stringValue 0%nat) "1"]> (∅ : gmap string Config)).
    intros [[<- <-]|[_ Hc]]%lookup_insert_Some; [reflexivity|].
    by rewrite lookup_empty in Hc. }
  assert (Hname : filename sample_named.1.1 <> "") by discriminate.
  assert (Hcreate : filename sample_named.1.1 ∉ denied sample_named.2)
    by apply not_elem_of_empty.
  split; [exact Hkeys|]. split; [exact Hname|]. split; [exact Hcreate|].
  exact (ConfigSet_Save_writes_default_set sample_named.1.1 sample_named.1.1 sample_named.2
           Hkeys Hname Hcreate).
Defined.

(** ** Configs are registered under their own names *)

Lemma keys_are_names_Var f value name usage w f' w' :
  keys_are_names (formal f) ->
  ConfigSet_Var f value name usage w = Return f' w' ->
  keys_are_names (formal f').
Proof.
  unfold ConfigSet_Var. intros Hkeys.
  destruct (formal f !! name); [discriminate|]. intros [= <- _].
  cbn [formal set_formal]. intros k c [[<- <-]|[_ Hc]]%lookup_insert_Some; [reflexivity|].
  by apply Hkeys.
Qed.

Lemma keys_are_names_Set f name value w f' err w' :
  keys_are_names (formal f) ->
  ConfigSet_Set f name value w = Return (f', err) w' ->
  keys_are_names (formal f').
Proof.
  intros Hkeys. destruct (formal f !! name) as [c|] eqn:Hname.
  - rewrite (ConfigSet_Set_registered _ _ _ _ _ Hname).
    destruct (Value_Set (Config_Value c) value (heap w)) as [h' [e|]];
      by intros [= <- _ _].
  - rewrite ConfigSet_Set_unregistered by assumption. intros [= <- _ _].
    cbn [formal set_formal]. intros k c [[<- <-]|[_ Hc]]%lookup_insert_Some; [reflexivity|].
    by apply Hkeys.
Qed.

Lemma keys_are_names_Load_lines lines f w f' w' :
  keys_are_names (formal f) ->
  Load_lines f lines w = Return f' w' ->
  keys_are_names (formal f').
Proof.
  revert f w. induction lines as [|line rest IH]; intros f w Hkeys; cbn [Load_lines].
  - by intros [= <- _].
  - destruct (Load_line f line w) as [f1 w1|] eqn:Hline; [|discriminate].
    apply IH. revert Hline. unfold Load_line.
    destruct (strings_Split _ _) as [|k [|v [|? ?]]]; try (by intros [= <- _]).
    destruct (ConfigSet_Set f _ _ w) as [[f2 [e|]] w2|] eqn:Hset; [| |discriminate];
      intros [= <- _]; eapply keys_are_names_Set; eassumption.
Qed.

(** After any sequence of [Var], [Set] and [Load] calls and assignments on
    a new set, every config of [formal] is registered under its own name,
    which is what [sortConfigs] relies on. *)
Theorem formal_keys_are_names (ops : list op) (filename : string) (w : World) :
  keys_are_names (formal (run_ops ops (NewConfigSet filename) w).1).
Proof.
  assert (Hnew : keys_are_names (formal (NewConfigSet filename))).
  { intros k c Hc. cbn in Hc. by rewrite lookup_empty in Hc. }
  revert Hnew. generalize (NewConfigSet filename) as f. revert w.
  induction ops as [|o ops IH]; intros w f Hkeys; cbn [run_ops]; [assumption|].
  destruct (run_op o f w) as [f1 w1|] eqn:Hop; [|assumption].
  apply IH. destruct o as [value name usage|name value| |p v]; cbn [run_op] in Hop.
  - eapply keys_are_names_Var; eassumption.
  - destruct (ConfigSet_Set f name value w) as [[f2 err] w2|] eqn:Hset; [|discriminate].
    injection Hop as <- _. eapply keys_are_names_Set; eassumption.
  - revert Hop. unfold ConfigSet_Load.
    destruct (String.eqb _ _); [by intros [= <- _]|].
    destruct (os_Open _ _); [|by intros [= <- _]].
    by apply keys_are_names_Load_lines.
  - by injection Hop as <- _.
Qed.

(** * Further properties of the registry *)

(** ** Registered configs stay *)

Lemma formal_kept_Var f value name usage w f' w' :
  ConfigSet_Var f value name usage w = Return f' w' -> formal f ⊆ formal f'.
Proof.
  unfold ConfigSet_Var. destruct (formal f !! name) eqn:Hname; [discriminate|].
  intros [= <- _]. cbn [formal set_formal]. by apply insert_subseteq.
Qed.

Lemma formal_kept_Set f name value w f' err w' :
  ConfigSet_Set f name value w = Return (f', err) w' -> formal f ⊆ formal f'.
Proof.
  destruct (formal f !! name) as [c|] eqn:Hname.
  - rewrite (ConfigSet_Set_registered _ _ _ _ _ Hname).
    destruct (Value_Set (Config_Value c) value (heap w)) as [h' [e|]];
      by intros [= <- _ _].
  - rewrite ConfigSet_Set_unregistered by assumption. intros [= <- _ _].
    cbn [formal set_formal]. by apply insert_subseteq.
Qed.

Lemma formal_kept_Load_line f line w f' w' :
  Load_line f line w = Return f' w' -> formal f ⊆ formal f'.
Proof.
  unfold Load_line.
  destruct (strings_Split _ _) as [|k [|v [|? ?]]]; try (by intros [= <- _]).
  destruct (ConfigSet_Set f _ _ w) as [[f1 [e|]] w1|] eqn:Hset; [| |discriminate];
    intros [= <- _]; eapply formal_kept_Set; eassumption.
Qed.

Lemma formal_kept_Load_lines lines f w f' w' :
  Load_lines f lines w = Return f' w' -> formal f ⊆ formal f'.
Proof.
  revert f w. induction lines as [|line rest IH]; intros f w; cbn [Load_lines].
  - by intros [= <- _].
  - destruct (Load_line f line w) as [f1 w1|] eqn:Hline; [|discriminate].
    intros Hrest. etrans; [eapply formal_kept_Load_line; eassumption|].
    eapply IH; eassumption.
Qed.

Lemma formal_kept_Load f w f' w' :
  ConfigSet_Load f w = Return f' w' -> formal f ⊆ formal f'.
Proof.
  unfold ConfigSet_Load. destruct (String.eqb _ _); [by intros [= <- _]|].
  destruct (os_Open _ _); [|by intros [= <- _]]. apply formal_kept_Load_lines.
Qed.

(** Whatever a program goes on to do with a set ([Var], [Set], [Load],
    assignments), a config that is registered stays registered under its
    name, as the same config: its usage, its value and its default text
    never change, and no call removes or replaces it. *)
Theorem registered_configs_are_kept (ops : list op) (f : ConfigSet) (w : World) :
  formal f ⊆ formal (run_ops ops f w).1.
Proof.
  revert f w. induction ops as [|o ops IH]; intros f w; cbn [run_ops]; [done|].
  destruct (run_op o f w) as [f1 w1|] eqn:Hop; [|done].
  etrans; [|apply IH].
  destruct o as [value name usage|name value| |p v]; cbn [run_op] in Hop.
  - eapply formal_kept_Var; eassumption.
  - destruct (ConfigSet_Set f name value w) as [[f2 err] w2|] eqn:Hset; [|discriminate].
    injection Hop as <- _. eapply formal_kept_Set; eassumption.
  - eapply formal_kept_Load; eassumption.
  - by injection Hop as <- _.
Qed.

(** ** The typed definitions *)

Lemma load_new_cell (h : list cell) (v : cell) :
  (h ++ [v])%list !! List.length h = Some v.
Proof. by apply list_lookup_middle. Qed.

(** [f.Bool], [f.Int], [f.Int64], [f.Uint], [f.Uint64] and [f.String] under
    a name that is free return a pointer to a new cell, which holds the
    default value; the cells that were there are as they were, and the
    config registered has the rendering of the default value as its default
    text. *)
Theorem typed_define_returns_fresh_cell (f : ConfigSet) (name usage : string) (w : World) :
  formal f !! name = None ->
  (forall v, ConfigSet_Bool f name v usage w =
     Return (set_formal (<[name := mkConfig name usage (boolValue (List.length (heap w)))
                                     (strconv_FormatBool v)]> (formal f)) f,
             List.length (heap w))
       (set_heap (heap w ++ [CBool v])%list w)) /\
  (forall v, ConfigSet_Int f name v usage w =
     Return (set_formal (<[name := mkConfig name usage (intValue (List.length (heap w)))
                                     (strconv_Itoa v)]> (formal f)) f,
             List.length (heap w))
       (set_heap (heap w ++ [CInt v])%list w)) /\
  (forall v, ConfigSet_Int64 f name v usage w =
     Return (set_formal (<[name := mkConfig name usage (int64Value (List.length (heap w)))
                                     (strconv_FormatInt v 10)]> (formal f)) f,
             List.length (heap w))
       (set_heap (heap w ++ [CInt64 v])%list w)) /\
  (forall v, ConfigSet_Uint f name v usage w =
     Return (set_formal (<[name := mkConfig name usage (uintValue (List.length (heap w)))
                                     (strconv_FormatUint v 10)]> (formal f)) f,
             List.length (heap w))
       (set_heap (heap w ++ [CUint v])%list w)) /\
  (forall v, ConfigSet_Uint64 f name v usage w =
     Return (set_formal (<[name := mkConfig name usage (uint64Value (List.length (heap w)))
                                     (strconv_FormatUint v 10)]> (formal f)) f,
             List.length (heap w))
       (set_heap (heap w ++ [CUint64 v])%list w)) /\
  (forall v, ConfigSet_String f name v usage w =
     Return (set_formal (<[name := mkConfig name usage (stringValue (List.length (heap w)))
                                     v]> (formal f)) f,
             List.length (heap w))
       (set_heap (heap w ++ [CString v])%list w)).
Proof.
  intros Hfree.
  repeat split; intros;
    unfold ConfigSet_Bool, ConfigSet_Int, ConfigSet_Int64, ConfigSet_Uint,
      ConfigSet_Uint64, ConfigSet_String, with_new, new, ConfigSet_BoolVar, ConfigSet_IntVar,
      ConfigSet_Int64Var, ConfigSet_UintVar, ConfigSet_Uint64Var, ConfigSet_StringVar,
      ConfigSet_Var;
    cbn [heap set_heap]; rewrite Hfree, store_new_cell;
    cbn [Value_String boolValue intValue int64Value uintValue uint64Value stringValue];
    unfold boolValue_String, intValue_String, int64Value_String, uintValue_String,
      uint64Value_String, stringValue_String, load_bool, load_int, load_int64, load_uint,
      load_uint64, load_string;
    rewrite load_new_cell; reflexivity.
Qed.

Lemma typed_define_returns_fresh_cell_witness :
  formal sample_bool.1.1 !! "n" = None /\
  ConfigSet_Int sample_bool.1.1 "n" 7 "count" sample_bool.2 =
    Return (set_formal (<["n" := mkConfig "n" "count" (intValue 1%nat) "7"]>
                          (formal sample_bool.1.1)) sample_bool.1.1, 1%nat)
      (set_heap [CBool true; CInt 7] sample_bool.2).
Proof.
  split; [reflexivity|].
  exact (proj1 (proj2 (typed_define_returns_fresh_cell sample_bool.1.1 "n" "count"
                         sample_bool.2 eq_refl)) 7).
Defined.

(** [f.BoolVar(p, ...)] and its siblings store the default value in [*p]
    before [Var] looks the name up: under a name that is taken they panic,
    and the caller's variable holds the default value all the same. *)
Theorem typed_Var_stores_before_duplicate_panic
    (f : ConfigSet) (p : loc) (name usage : string) (w : World) :
  is_Some (formal f !! name) ->
  (p < List.length (heap w))%nat ->
  (forall v, exists msg w',
     ConfigSet_BoolVar f p name v usage w = Panic msg w' /\ heap w' !! p = Some (CBool v)) /\
  (forall v, exists msg w',
     ConfigSet_IntVar f p name v usage w = Panic msg w' /\ heap w' !! p = Some (CInt v)) /\
  (forall v, exists msg w',
     ConfigSet_Int64Var f p name v usage w = Panic msg w' /\ heap w' !! p = Some (CInt64 v)) /\
  (forall v, exists msg w',
     ConfigSet_UintVar f p name v usage w = Panic msg w' /\ heap w' !! p = Some (CUint v)) /\
  (forall v, exists msg w',
     ConfigSet_Uint64Var f p name v usage w = Panic msg w' /\ heap w' !! p = Some (CUint64 v)) /\
  (forall v, exists msg w',
     ConfigSet_StringVar f p name v usage w = Panic msg w' /\ heap w' !! p = Some (CString v)).
Proof.
  intros [c Hc] Hp.
  repeat split; intros v;
    unfold ConfigSet_BoolVar, ConfigSet_IntVar, ConfigSet_Int64Var, ConfigSet_UintVar,
      ConfigSet_Uint64Var, ConfigSet_StringVar, ConfigSet_Var;
    rewrite Hc; eexists _, _; (split; [reflexivity|]);
    cbn [heap print set_heap]; unfold store; by apply list_lookup_insert_eq.
Qed.

Lemma typed_Var_stores_before_duplicate_panic_witness :
  is_Some (formal sample_bool.1.1 !! "b") /\
  (0 < List.length (heap sample_bool.2))%nat /\
  heap sample_bool.2 !! 0%nat = Some (CBool true) /\
  exists msg w',
    ConfigSet_BoolVar sample_bool.1.1 0%nat "b" false "again" sample_bool.2 = Panic msg w' /\
    heap w' !! 0%nat = Some (CBool false).
Proof.
  assert (Hreg : is_Some (formal sample_bool.1.1 !! "b")) by (vm_compute; eauto).
  assert (Hp : (0 < List.length (heap sample_bool.2))%nat) by (vm_compute; lia).
  split; [exact Hreg|]. split; [exact Hp|]. split; [reflexivity|].
  exact (proj1 (typed_Var_stores_before_duplicate_panic sample_bool.1.1 0%nat "b" "again"
                  sample_bool.2 Hreg Hp) false).
Defined.

(** ** Counting what was set *)

(** [NConfig] counts names, not calls: a [Set] adds one to it exactly when
    the name was registered before the call, the text was accepted, and the
    name had not been set before; a [Set] that fails, that repeats a name,
    or that defines an unknown name leaves the count as it was. *)
Theorem NConfig_counts_distinct_set_names
    (f f' : ConfigSet) (name text : string) (w w' : World) (err : option error) :
  ConfigSet_Set f name text w = Return (f', err) w' ->
  ConfigSet_NConfig f' =
    if decide (is_Some (formal f !! name) /\ err = None /\ actual f !! name = None)
    then S (ConfigSet_NConfig f) else ConfigSet_NConfig f.
Proof.
  unfold ConfigSet_NConfig. destruct (formal f !! name) as [c|] eqn:Hname.
  - rewrite (ConfigSet_Set_registered _ _ _ _ _ Hname).
    destruct (Value_Set (Config_Value c) text (heap w)) as [h' [e|]]; intros [= <- <- _].
    + rewrite decide_False; [done|]. by intros (_ & ? & _).
    + cbn [actual set_actual]. rewrite map_size_insert.
      destruct (actual f !! name) eqn:Hact; cbn.
      * rewrite decide_False; [done|]. by intros (_ & _ & ?).
      * rewrite decide_True; [done|]. split; eauto.
  - rewrite ConfigSet_Set_unregistered by assumption. intros [= <- <- _].
    cbn [actual set_formal]. rewrite decide_False; [done|].
    intros ([? ?] & _). discriminate.
Qed.

Lemma NConfig_counts_distinct_set_names_witness :
  exists f1 w1,
    ConfigSet_Set sample_bool.1.1 "b" "0" sample_bool.2 = Return (f1, None) w1 /\
    ConfigSet_NConfig f1 =
      (if decide (is_Some (formal sample_bool.1.1 !! "b") /\ None = (None : option error)
                  /\ actual sample_bool.1.1 !! "b" = None)
       then S (ConfigSet_NConfig sample_bool.1.1) else ConfigSet_NConfig sample_bool.1.1) /\
    ConfigSet_NConfig sample_bool.1.1 = 0%nat /\
    ConfigSet_NConfig f1 = 1%nat.
Proof.
  eexists _, _. split; [reflexivity|]. split; [|split; reflexivity].
  refine (NConfig_counts_distinct_set_names sample_bool.1.1 _ "b" "0" sample_bool.2 _ None _).
  reflexivity.
Defined.

(** Two calls of [Set] on a name that was not registered: the first defines
    a string config whose default text is the first text and does not count
    it as set; the second assigns the second text to the same cell, leaves
    the default text alone, and records the name in [actual]. *)
Theorem Set_twice_on_unknown_name (f : ConfigSet) (name v1 v2 : string) (w : World) :
  formal f !! name = None ->
  actual f !! name = None ->
  exists f1 w1 f2 w2 p,
    ConfigSet_Set f name v1 w = Return (f1, None) w1 /\
    ConfigSet_Set f1 name v2 w1 = Return (f2, None) w2 /\
    actual f1 !! name = None /\
    ConfigSet_Lookup f2 name = Some (mkConfig name "" (stringValue p) v1) /\
    actual f2 !! name = Some (mkConfig name "" (stringValue p) v1) /\
    heap w !! p = None /\
    heap w1 !! p = Some (CString v1) /\
    heap w2 !! p = Some (CString v2) /\
    ConfigSet_NConfig f2 = S (ConfigSet_NConfig f).
Proof.
  intros Hfree Hunset.
  rewrite (ConfigSet_Set_unregistered f name v1 w Hfree).
  eexists _, _, _, _, (List.length (heap w)). split; [reflexivity|].
  set (c := mkConfig name "" (stringValue (List.length (heap w))) v1).
  rewrite (ConfigSet_Set_registered _ name v2 _ c)
    by (cbn [formal set_formal]; apply lookup_insert_eq).
  cbn [Value_Set Config_Value c stringValue stringValue_Set heap print set_heap].
  split; [reflexivity|]. cbn [actual formal set_formal set_actual ConfigSet_Lookup heap set_heap].
  unfold ConfigSet_Lookup, ConfigSet_NConfig. cbn [actual formal set_formal set_actual].
  rewrite !lookup_insert_eq, store_new_cell, !load_new_cell.
  repeat split; try assumption.
  - apply lookup_ge_None_2. lia.
  - by apply map_size_insert_None.
Qed.

Lemma Set_twice_on_unknown_name_witness :
  formal (NewConfigSet "") !! "colour" = None /\
  actual (NewConfigSet "") !! "colour" = None /\
  exists f1 w1 f2 w2 p,
    ConfigSet_Set (NewConfigSet "") "colour" "red" w_empty = Return (f1, None) w1 /\
    ConfigSet_Set f1 "colour" "blue" w1 = Return (f2, None) w2 /\
    actual f1 !! "colour" = None /\
    ConfigSet_Lookup f2 "colour" = Some (mkConfig "colour" "" (stringValue p) "red") /\
    actual f2 !! "colour" = Some (mkConfig "colour" "" (stringValue p) "red") /\
    heap w_empty !! p = None /\
    heap w1 !! p = Some (CString "red") /\
    heap w2 !! p = Some (CString "blue") /\
    ConfigSet_NConfig f2 = S (ConfigSet_NConfig (NewConfigSet "")).
Proof.
  split; [reflexivity|]. split; [reflexivity|].
  exact (Set_twice_on_unknown_name (NewConfigSet "") "colour" "red" "blue" w_empty
           eq_refl eq_refl).
Defined.

(** ** Traversal *)

(** The sample set: three configs registered out of order, two of them
    set. *)
Lemma sample_set_formal :
  formal sample_set.1 =
    <["m" := mkConfig "m" "an m" (boolValue 2%nat) "false"]>
      (<["a" := mkConfig "a" "an a" (intValue 1%nat) "1"]>
         (<["z" := mkConfig "z" "a z" (stringValue 0%nat) "last"]> ∅)).
Proof. reflexivity. Qed.


Lemma sample_set_keys : keys_are_names (formal sample_set.1).
Proof.
  rewrite sample_set_formal. intros k c [[<- <-]|[_ Hc]]%lookup_insert_Some; [reflexivity|].
  apply lookup_insert_Some in Hc as [[<- <-]|[_ Hc]]; [reflexivity|].
  apply lookup_insert_Some in Hc as [[<- <-]|[_ Hc]]; [reflexivity|].
  by rewrite lookup_empty in Hc.
Qed.





(** ** [Print] *)

Lemma visit_each_Print_visitor (cs : list Config) (w : World) :
  visit_each Print_visitor (Some <$> cs) w =
    Return tt (mkWorld (heap w) (stdout w ++ (Print_call (heap w) <$> cs))%list
                 (files w) (denied w)).
Proof.
  revert w. induction cs as [|c cs IH]; intros w; cbn [fmap list_fmap visit_each].
  - rewrite app_nil_r. by destruct w.
  - cbn [Print_visitor]. fold (Print_call (heap w) c). rewrite IH.
    cbn [heap stdout files denied print]. by rewrite <- app_assoc.
Qed.

(** [f.Print()] prints one line per config registered in the default set,
    by increasing name, with the value as it is in the heap at that moment,
    and changes nothing else; the receiver [f] plays no part. *)
Theorem Print_prints_default_set (Configuration f : ConfigSet) (w : World) :
  keys_are_names (formal Configuration) ->
  exists cs,
    ConfigSet_Print Configuration f w =
      Return tt (mkWorld (heap w) (stdout w ++ (Print_call (heap w) <$> cs))%list
                   (files w) (denied w)) /\
    Config_Name <$> cs ≡ₚ (map_to_list (formal Configuration)).*1 /\
    Sorted String.le (Config_Name <$> cs) /\
    Forall (fun c => formal Configuration !! Config_Name c = Some c) cs.
Proof.
  intros Hkeys. unfold ConfigSet_Print, VisitAll, ConfigSet_VisitAll.
  destruct (sortConfigs_spec _ Hkeys) as (cs & -> & Hperm & Hsorted & Hall).
  exists cs. rewrite visit_each_Print_visitor. auto.
Qed.

Lemma Print_prints_default_set_witness :
  keys_are_names (formal sample_set.1) /\
  (exists w',
     ConfigSet_Print sample_set.1 (NewConfigSet "") sample_set.2 = Return tt w' /\
     stdout w' =
       [Printf ("%-20s = %s # %s" ++ nl) [ArgString "a"; ArgString "7"; ArgString "an a"];
        Printf ("%-20s = %s # %s" ++ nl) [ArgString "m"; ArgString "false"; ArgString "an m"];
        Printf ("%-20s = %s # %s" ++ nl) [ArgString "z"; ArgString "end"; ArgString "a z"]]) /\
  exists cs,
    ConfigSet_Print sample_set.1 (NewConfigSet "") sample_set.2 =
      Return tt (mkWorld (heap sample_set.2)
                   (stdout sample_set.2 ++ (Print_call (heap sample_set.2) <$> cs))%list
                   (files sample_set.2) (denied sample_set.2)) /\
    Config_Name <$> cs ≡ₚ (map_to_list (formal sample_set.1)).*1 /\
    Sorted String.le (Config_Name <$> cs) /\
    Forall (fun c => formal sample_set.1 !! Config_Name c = Some c) cs.
Proof.
  split; [exact sample_set_keys|].
  split; [eexists; split; reflexivity|].
  exact (Print_prints_default_set sample_set.1 (NewConfigSet "") sample_set.2 sample_set_keys).
Defined.

(** ** What [Save] and [Load] leave alone *)

Lemma visit_each_Save_visitor_frame (out : string) (cs : list Config) (w : World) :
  exists w',
    visit_each (Save_visitor out) (Some <$> cs) w = Return tt w' /\
    heap w' = heap w /\ stdout w' = stdout w /\ denied w' = denied w /\
    forall other, other <> out -> files w' !! other = files w !! other.
Proof.
  revert w. induction cs as [|c cs IH]; intros w; cbn [fmap list_fmap visit_each].
  - exists w. auto.
  - cbn [Save_visitor].
    destruct (IH (write_file out (Save_line (heap w) c) w))
      as (w' & -> & Hheap & Hout & Hden & Hfiles).
    exists w'. split; [reflexivity|]. cbn [heap stdout denied files write_file] in *.
    repeat split; try assumption.
    intros other Hother. rewrite Hfiles by assumption. by apply lookup_insert_ne.
Qed.

(** [Save] returns whenever the configs of the default set are registered
    under their names (it then meets no nil pointer); it never changes the
    heap or the set of paths that cannot be opened, and of the files it
    touches none but the one named by [f.filename]; it only adds to the
    output.  This covers the calls that do nothing: no file name, or a file
    that cannot be created. *)
Theorem Save_touches_only_its_file (Configuration f : ConfigSet) (w : World) :
  keys_are_names (formal Configuration) ->
  exists w',
    ConfigSet_Save Configuration f w = Return tt w' /\
    heap w' = heap w /\
    denied w' = denied w /\
    stdout w `prefix_of` stdout w' /\
    (forall other, other <> filename f -> files w' !! other = files w !! other) /\
    (filename f = "" \/ filename f ∈ denied w -> files w' = files w).
Proof.
  intros Hkeys. unfold ConfigSet_Save, VisitAll, ConfigSet_VisitAll.
  destruct (String.eqb_spec (filename f) "") as [Hname|Hname].
  { eexists. split; [reflexivity|]. cbn [heap denied stdout files print].
    repeat split; auto. by apply prefix_app_r. }
  unfold os_Create. cbn [denied print].
  destruct (decide (filename f ∈ denied w)) as [Hden|Hden].
  { eexists. split; [reflexivity|]. cbn [heap denied stdout files].
    repeat split; auto. by apply prefix_app_r. }
  destruct (sortConfigs_spec _ Hkeys) as (cs & -> & _).
  match goal with |- context [visit_each _ _ ?w0] => set (w1 := w0) end.
  destruct (visit_each_Save_visitor_frame (filename f) cs w1)
    as (w' & -> & Hheap & Hout & Hdenied & Hfiles).
  eexists. split; [reflexivity|]. cbn [heap denied stdout files print].
  rewrite Hheap, Hout, Hdenied. unfold w1. cbn [heap denied stdout files print].
  repeat split.
  - rewrite <- app_assoc. by apply prefix_app_r.
  - intros other Hother. rewrite Hfiles by assumption. cbn [files].
    by apply lookup_insert_ne.
  - intros [Hempty|Hin]; contradiction.
Qed.

Lemma Save_touches_only_its_file_witness :
  keys_are_names (formal sample_set.1) /\
  files sample_set.2 = {["other.conf" := "keep"]} /\
  (exists w',
     ConfigSet_Save sample_set.1 sample_set.1 sample_set.2 = Return tt w' /\
     heap w' = heap sample_set.2 /\
     denied w' = denied sample_set.2 /\
     stdout sample_set.2 `prefix_of` stdout w' /\
     files w' !! "other.conf" = Some "keep" /\
     files w' !! "out.conf" =
       Some ("a=7 # an a" ++ nl ++ "m=false # an m" ++ nl ++ "z=end # a z" ++ nl)) /\
  (exists w',
     ConfigSet_Save sample_set.1 (NewConfigSet "") sample_set.2 = Return tt w' /\
     heap w' = heap sample_set.2 /\
     files w' = files sample_set.2) /\
  (exists w',
     ConfigSet_Save sample_set.1 (NewConfigSet "locked.conf") sample_set.2 = Return tt w' /\
     heap w' = heap sample_set.2 /\
     files w' = files sample_set.2).
Proof.
  split; [exact sample_set_keys|]. split; [reflexivity|]. split; [|split].
  - destruct (Save_touches_only_its_file sample_set.1 sample_set.1 sample_set.2
                sample_set_keys) as (w' & Hsave & Hheap & Hdenied & Hout & Hother & _).
    exists w'. split; [exact Hsave|]. split; [exact Hheap|]. split; [exact Hdenied|].
    split; [exact Hout|]. split.
    + rewrite (Hother "other.conf") by discriminate. reflexivity.
    + assert (Hfile : match ConfigSet_Save sample_set.1 sample_set.1 sample_set.2 with
                      | Return _ w0 => files w0 !! "out.conf"
                      | Panic _ _ => None
                      end = Some ("a=7 # an a" ++ nl ++ "m=false # an m" ++ nl ++
                                  "z=end # a z" ++ nl)) by reflexivity.
      rewrite Hsave in Hfile. exact Hfile.
  - destruct (Save_touches_only_its_file sample_set.1 (NewConfigSet "") sample_set.2
                sample_set_keys) as (w' & Hsave & Hheap & _ & _ & _ & Hsame).
    exists w'. split; [exact Hsave|]. split; [exact Hheap|]. apply Hsame. by left.
  - destruct (Save_touches_only_its_file sample_set.1 (NewConfigSet "locked.conf")
                sample_set.2 sample_set_keys) as (w' & Hsave & Hheap & _ & _ & _ & Hsame).
    exists w'. split; [exact Hsave|]. split; [exact Hheap|]. apply Hsame. right.
    vm_compute. reflexivity.
Defined.

Lemma Set_frame f name value w f' err w' :
  ConfigSet_Set f name value w = Return (f', err) w' ->
  files w' = files w /\ denied w' = denied w /\ filename f' = filename f /\
  stdout w `prefix_of` stdout w'.
Proof.
  destruct (formal f !! name) as [c|] eqn:Hname.
  - rewrite (ConfigSet_Set_registered _ _ _ _ _ Hname).
    destruct (Value_Set (Config_Value c) value (heap w)) as [h' [e|]];
      intros [= <- _ <-]; cbn; auto.
  - rewrite ConfigSet_Set_unregistered by assumption. intros [= <- _ <-].
    cbn. repeat split. by apply prefix_app_r.
Qed.

Lemma Load_line_frame f line w f' w' :
  Load_line f line w = Return f' w' ->
  files w' = files w /\ denied w' = denied w /\ filename f' = filename f /\
  stdout w `prefix_of` stdout w'.
Proof.
  unfold Load_line.
  destruct (strings_Split _ _) as [|k [|v [|? ?]]]; try (by intros [= <- <-]).
  destruct (ConfigSet_Set f _ _ w) as [[f1 [e|]] w1|] eqn:Hset; [| |discriminate];
    intros [= <- <-]; destruct (Set_frame _ _ _ _ _ _ _ Hset) as (? & ? & ? & Hpre);
    cbn [files denied stdout print]; repeat split; try assumption.
  by apply prefix_app_r.
Qed.

Lemma Load_lines_frame lines f w f' w' :
  Load_lines f lines w = Return f' w' ->
  files w' = files w /\ denied w' = denied w /\ filename f' = filename f /\
  stdout w `prefix_of` stdout w'.
Proof.
  revert f w. induction lines as [|line rest IH]; intros f w; cbn [Load_lines].
  - by intros [= <- <-].
  - destruct (Load_line f line w) as [f1 w1|] eqn:Hline; [|discriminate].
    intros Hrest. destruct (Load_line_frame _ _ _ _ _ Hline) as (Hf & Hd & Hn & Hp).
    destruct (IH _ _ Hrest) as (Hf' & Hd' & Hn' & Hp').
    repeat split; try congruence. by etrans.
Qed.

(** [Load] never writes a file and never renames the set: the files and
    the paths that cannot be opened are as before, the file name of the set
    is the same, the output is only added to, and every config that was
    registered is still registered, as the same config.  This covers the
    calls that read nothing: no file name, or a file that cannot be
    opened. *)
Theorem Load_keeps_files_and_registrations (f f' : ConfigSet) (w w' : World) :
  ConfigSet_Load f w = Return f' w' ->
  files w' = files w /\
  denied w' = denied w /\
  filename f' = filename f /\
  stdout w `prefix_of` stdout w' /\
  formal f ⊆ formal f' /\
  (filename f = "" \/ os_Open (filename f) w = None ->
     f' = f /\ heap w' = heap w).
Proof.
  intros Hload. pose proof (formal_kept_Load _ _ _ _ Hload) as Hformal.
  revert Hload. unfold ConfigSet_Load.
  destruct (String.eqb_spec (filename f) "") as [Hname|Hname].
  { intros [= <- <-]. cbn. repeat split; auto. by apply prefix_app_r. }
  unfold os_Open at 1. cbn [denied files print].
  change (if decide (filename f ∈ denied w) then None else files w !! filename f)
    with (os_Open (filename f) w).
  destruct (os_Open (filename f) w) as [content|] eqn:Hopen.
  - intros Hlines. destruct (Load_lines_frame _ _ _ _ _ Hlines) as (Hf & Hd & Hn & Hp).
    cbn [files denied stdout print] in *.
    split; [assumption|]. split; [assumption|]. split; [assumption|].
    split; [etrans; [|exact Hp]; by apply prefix_app_r|].
    split; [assumption|]. intros [?|?]; [contradiction|discriminate].
  - intros [= <- <-]. cbn. repeat split; auto. by apply prefix_app_r.
Qed.

Lemma Load_keeps_files_and_registrations_witness :
  exists f' w',
    ConfigSet_Load (sample_int ("n = 5" ++ nl)).1.1 (sample_int ("n = 5" ++ nl)).2
      = Return f' w' /\
    files w' = files (sample_int ("n = 5" ++ nl)).2 /\
    formal (sample_int ("n = 5" ++ nl)).1.1 ⊆ formal f'.
Proof.
  eexists _, _. split; [reflexivity|].
  match goal with
  | |- files ?w' = _ /\ _ ⊆ formal ?f' =>
      pose proof (Load_keeps_files_and_registrations
                    (sample_int ("n = 5" ++ nl)).1.1 f'
                    (sample_int ("n = 5" ++ nl)).2 w' eq_refl)
        as (Hf & _ & _ & _ & Hs & _)
  end.
  split; assumption.
Defined.

(** ** Writing a file and reading it back *)

Lemma count_byte_append (c : ascii) (a b : string) :
  count_byte c (a ++ b) = (count_byte c a + count_byte c b)%nat.
Proof.
  induction a as [|x a IH]; rewrite ?append_nil, ?append_cons; cbn [count_byte]; lia.
Qed.

Lemma length_append (a b : string) :
  String.length (a ++ b) = (String.length a + String.length b)%nat.
Proof.
  induction a as [|x a IH]; rewrite ?append_nil, ?append_cons; cbn [String.length]; lia.
Qed.

Lemma length_rev_app (s1 s2 : string) :
  String.length (String.rev_app s1 s2) = (String.length s1 + String.length s2)%nat.
Proof.
  revert s2. induction s1 as [|a s1 IH]; intros s2; cbn [String.rev_app String.length];
    [done|]. rewrite IH. cbn [String.length]. lia.
Qed.

Lemma length_rev (s : string) : String.length (String.rev s) = String.length s.
Proof. unfold String.rev. rewrite length_rev_app. cbn. lia. Qed.

(** Trimming on the left returns the string itself or a shorter one. *)
Lemma trimLeftSpace_shorter (n : nat) (s : string) :
  (String.length s <= n)%nat ->
  trimLeftSpace s = s \/ (String.length (trimLeftSpace s) < String.length s)%nat.
Proof.
  revert s. induction n as [|n IH]; intros s Hn.
  - destruct s; [by left|cbn in Hn; lia].
  - destruct s as [|c0 s1]; [by left|]. rewrite trimLeftSpace_unfold.
    cbn [String.length] in *.
    destruct (asciiSpace c0).
    { right. destruct (IH s1 ltac:(lia)) as [->|?]; lia. }
    destruct s1 as [|c1 s2]; [by left|]. cbn [String.length] in *.
    destruct (isSpace2 c0 c1).
    { right. destruct (IH s2 ltac:(lia)) as [->|?]; lia. }
    destruct s2 as [|c2 s3]; [by left|]. cbn [String.length] in *.
    destruct (isSpace3 c0 c1 c2); [|by left].
    right. destruct (IH s3 ltac:(lia)) as [->|?]; lia.
Qed.

Lemma trimRightSpace_rev_shorter (n : nat) (r : string) :
  (String.length r <= n)%nat ->
  trimRightSpace_rev r = r \/ (String.length (trimRightSpace_rev r) < String.length r)%nat.
Proof.
  revert r. induction n as [|n IH]; intros r Hn.
  - destruct r; [by left|cbn in Hn; lia].
  - destruct r as [|c0 r1]; [by left|]. rewrite trimRightSpace_rev_unfold.
    cbn [String.length] in *.
    destruct (asciiSpace c0).
    { right. destruct (IH r1 ltac:(lia)) as [->|?]; lia. }
    destruct r1 as [|c1 r2]; [by left|]. cbn [String.length] in *.
    destruct (isSpace2 c1 c0).
    { right. destruct (IH r2 ltac:(lia)) as [->|?]; lia. }
    destruct r2 as [|c2 r3]; [by left|]. cbn [String.length] in *.
    destruct (isSpace3 c2 c1 c0); [|by left].
    right. destruct (IH r3 ltac:(lia)) as [->|?]; lia.
Qed.

(** A string that [TrimSpace] returns as it is has no white space to lose
    at either end. *)
Lemma TrimSpace_fixed (v : string) :
  strings_TrimSpace v = v ->
  trimLeftSpace v = v /\ trimRightSpace_rev (String.rev v) = String.rev v.
Proof.
  unfold strings_TrimSpace. intros Hv.
  pose proof (f_equal String.length Hv) as Hlen. rewrite length_rev in Hlen.
  destruct (trimLeftSpace_shorter (String.length v) v ltac:(lia)) as [Hl|Hl].
  - rewrite Hl in Hlen |- *. split; [reflexivity|].
    destruct (trimRightSpace_rev_shorter _ (String.rev v) ltac:(reflexivity)) as [Hr|Hr];
      [assumption|]. rewrite length_rev in Hr. lia.
  - destruct (trimRightSpace_rev_shorter _ (String.rev (trimLeftSpace v)) ltac:(reflexivity))
      as [Hr|Hr]; [rewrite Hr in Hlen|]; rewrite length_rev in *; lia.
Qed.

(** A space after a trimmed text is trimmed off again. *)
Lemma TrimSpace_append_space (v : string) :
  strings_TrimSpace v = v -> strings_TrimSpace (v ++ " ") = v.
Proof.
  intros Hv. destruct (TrimSpace_fixed v Hv) as [Hl Hr].
  assert (Hleft : v = "" \/ trimLeftSpace (v ++ " ") = v ++ " ").
  { destruct v as [|c0 v1]; [by left|right].
    assert (Hshort : forall s, (String.length s < String.length (String c0 v1))%nat ->
              trimLeftSpace s <> String c0 v1).
    { intros s Hs Heq.
      destruct (trimLeftSpace_shorter _ s ltac:(reflexivity)) as [Hs'|Hs'];
        rewrite Heq in *; [subst s|]; lia. }
    rewrite append_cons. rewrite trimLeftSpace_unfold in Hl |- *.
    destruct (asciiSpace c0); [exfalso; apply (Hshort v1); [cbn; lia|exact Hl]|].
    destruct v1 as [|c1 v2].
    { rewrite append_nil. replace (isSpace2 c0 " ") with false; [reflexivity|].
      unfold isSpace2. change (byte_of " ") with 32. cbn. by rewrite andb_false_r. }
    rewrite append_cons.
    destruct (isSpace2 c0 c1);
      [exfalso; apply (Hshort v2); [cbn; lia|exact Hl]|].
    destruct v2 as [|c2 v3].
    - rewrite append_nil.
      replace (isSpace3 c0 c1 " ") with false; [reflexivity|].
      unfold isSpace3. change (byte_of " ") with 32. cbn.
      by rewrite !andb_false_r.
    - rewrite append_cons.
      destruct (isSpace3 c0 c1 c2);
        [exfalso; apply (Hshort v3); [cbn; lia|exact Hl]|reflexivity]. }
  unfold strings_TrimSpace. destruct Hleft as [-> | ->]; [reflexivity|].
  rewrite rev_append. change (String.rev " ") with " ". rewrite append_cons, append_nil.
  rewrite trimRightSpace_rev_unfold. change (asciiSpace " ") with true. cbv iota.
  rewrite Hr. apply rev_involutive'.
Qed.

(** A line [name=value #...] with a clean name and a clean value is read
    as [Set(name, value)], whatever follows the [#]. *)
Lemma Load_line_written_line (f : ConfigSet) (name value tail : string) (w : World) :
  clean_key name -> clean_value value ->
  Load_line f (name ++ "=" ++ value ++ " #" ++ tail) w =
    match ConfigSet_Set f name value w with
    | Return (f', Some err) w' =>
        Return f' (print (Printf ("f.Set returned err=%v" ++ nl) [ArgError err]) w')
    | Return (f', None) w' => Return f' w'
    | Panic msg w' => Panic msg w'
    end.
Proof.
  intros (Hnh & Hne & Hnt) ((Hvh & Hve & Hvt) & Hvq).
  assert (Hline : name ++ "=" ++ value ++ " #" ++ tail
                  = (name ++ String "=" (value ++ " ")) ++ String "#" tail).
  { change ("=" ++ value ++ " #" ++ tail) with (String "=" (value ++ " #" ++ tail)).
    change (" #" ++ tail) with (" " ++ String "#" tail).
    rewrite <- (append_assoc' value " " (String "#" tail)).
    change (String "=" ((value ++ " ") ++ String "#" tail))
      with (String "=" (value ++ " ") ++ String "#" tail).
    by rewrite append_assoc'. }
  assert (Hbody : count_byte "#" (name ++ String "=" (value ++ " ")) = 0%nat).
  { rewrite count_byte_append. cbn [count_byte]. rewrite count_byte_append, Hnh, Hvh.
    reflexivity. }
  unfold Load_line. rewrite Hline, (proj2 (strip_comment_spec _ Hbody)).
  rewrite strings_Split_one_sep;
    [|assumption|rewrite count_byte_append, Hve; reflexivity].
  by rewrite Hnt, (TrimSpace_append_space value Hvt), Hvq.
Qed.

(** ** The scanner on the lines of a file *)

Lemma byte_of_is_LF (c : ascii) : (byte_of c =? 10) = Ascii.eqb c LF.
Proof. by destruct c as [[] [] [] [] [] [] [] []]. Qed.

Lemma byte_of_is_CR (c : ascii) : (byte_of c =? 13) = Ascii.eqb c "013"%char.
Proof. by destruct c as [[] [] [] [] [] [] [] []]. Qed.

Lemma ScanLines_go_line (line cur rest : string) (n : Z) :
  count_byte LF line = 0%nat ->
  0 <= n -> n + Z.of_nat (String.length line) < MaxScanTokenSize ->
  ScanLines_go cur n (line ++ String LF rest) =
    dropCR (String.rev_app line cur) :: ScanLines_go "" 0 rest.
Proof.
  revert cur n. induction line as [|c line IH]; intros cur n Hlf Hn Hlen;
    rewrite ?append_nil, ?append_cons; cbn [ScanLines_go String.rev_app].
  - change (byte_of LF =? 10) with true. reflexivity.
  - cbn [count_byte String.length] in *. rewrite byte_of_is_LF.
    destruct (Ascii.eqb c LF); [discriminate|].
    replace (MaxScanTokenSize <=? n + 1) with false by lia.
    apply IH; [assumption|lia|lia].
Qed.

(** The scanner returns the lines that were written, each without a
    carriage return at its end. *)
Lemma bufio_Scan_lines (lines : list string) :
  Forall (fun l => count_byte LF l = 0%nat /\
                   Z.of_nat (String.length l) < MaxScanTokenSize) lines ->
  bufio_Scan (join ((fun l => l ++ nl) <$> lines)) =
    (fun l => dropCR (String.rev l)) <$> lines.
Proof.
  unfold bufio_Scan. induction 1 as [|l lines [Hlf Hlen] _ IH];
    cbn [join foldr fmap list_fmap]; [reflexivity|].
  unfold nl. rewrite append_assoc'. change (String LF "" ++ ?r) with (String LF r).
  rewrite ScanLines_go_line by (assumption || lia). f_equal. exact IH.
Qed.

(** Dropping a carriage return at the end of a line that has a comment
    changes the comment only. *)
Lemma dropCR_comment (body tail : string) :
  tail <> "" ->
  exists tail', dropCR (String.rev (body ++ String "#" tail)) = body ++ String "#" tail'.
Proof.
  intros Htail.
  assert (Hrev : String.rev (body ++ String "#" tail)
                 = String.rev tail ++ String.rev (body ++ "#")).
  { change (String "#" tail) with ("#" ++ tail).
    by rewrite <- append_assoc', rev_append. }
  destruct (String.rev tail) as [|c r] eqn:Hr.
  { exfalso. apply Htail. by rewrite <- (rev_involutive' tail), Hr. }
  rewrite append_cons in Hrev. rewrite Hrev. unfold dropCR.
  destruct (byte_of c =? 13).
  - exists (String.rev r).
    rewrite rev_append, rev_involutive', append_assoc'. reflexivity.
  - exists tail. rewrite <- Hrev. apply rev_involutive'.
Qed.

Lemma written_line_shape (name value tail : string) :
  name ++ "=" ++ value ++ " #" ++ tail
  = (name ++ String "=" (value ++ " ")) ++ String "#" tail.
Proof.
  change ("=" ++ value ++ " #" ++ tail) with (String "=" (value ++ " #" ++ tail)).
  change (" #" ++ tail) with (" " ++ String "#" tail).
  rewrite <- (append_assoc' value " " (String "#" tail)).
  change (String "=" ((value ++ " ") ++ String "#" tail))
    with (String "=" (value ++ " ") ++ String "#" tail).
  by rewrite append_assoc'.
Qed.

Lemma Save_line_text (h : list cell) (c : Config) : Save_line h c = Save_text h c ++ nl.
Proof.
  unfold Save_line, Save_text. by rewrite !append_assoc'.
Qed.

(** What the scanner returns for the line of a config is its name, [=],
    its rendered value and a comment. *)
Lemma scanned_Save_text (h : list cell) (c : Config) :
  exists tail,
    dropCR (String.rev (Save_text h c)) =
      Config_Name c ++ "=" ++ Value_String (Config_Value c) h ++ " #" ++ tail.
Proof.
  unfold Save_text.
  change (" # " ++ Config_Usage c) with (" #" ++ String " " (Config_Usage c)).
  rewrite written_line_shape.
  destruct (dropCR_comment (Config_Name c ++ String "=" (Value_String (Config_Value c) h ++ " "))
              (String " " (Config_Usage c)) ltac:(discriminate)) as (tail & ->).
  exists tail. by rewrite written_line_shape.
Qed.

Lemma set_heap_same (w : World) : set_heap (heap w) w = w.
Proof. by destruct w. Qed.

(** [Load] over the scanned lines of configs that are registered and save
    well: every line is a [Set] that succeeds and stores what was there. *)
Lemma Load_lines_saved (cs : list Config) (f : ConfigSet) (w : World) :
  Forall (fun c => formal f !! Config_Name c = Some c /\ saves_well (heap w) c) cs ->
  exists f',
    Load_lines f ((fun c => dropCR (String.rev (Save_text (heap w) c))) <$> cs) w
      = Return f' w /\
    formal f' = formal f /\
    filename f' = filename f /\
    forall k, actual f' !! k =
                if decide (k ∈ Config_Name <$> cs) then formal f !! k else actual f !! k.
Proof.
  revert f. induction cs as [|c cs IH]; intros f Hall; cbn [fmap list_fmap Load_lines].
  - exists f. repeat split.
  - apply Forall_cons in Hall as [[Hreg (Hkey & Hval & _ & _ & Hround)] Hall].
    destruct (scanned_Save_text (heap w) c) as (tail & ->).
    rewrite Load_line_written_line by assumption.
    rewrite (ConfigSet_Set_registered _ _ _ _ _ Hreg), Hround, set_heap_same.
    set (f1 := set_actual (<[Config_Name c := c]> (actual f)) f).
    destruct (IH f1 Hall) as (f' & -> & Hformal & Hname & Hactual).
    exists f'. split; [reflexivity|]. split; [exact Hformal|]. split; [exact Hname|].
    intros k. rewrite Hactual. cbn [formal actual f1 set_actual].
    destruct (decide (k ∈ Config_Name <$> cs)) as [Hin|Hin].
    + rewrite decide_True; [done|]. by right.
    + destruct (decide (k = Config_Name c)) as [->|Hne].
      * rewrite lookup_insert_eq, decide_True; [by rewrite Hreg|]. by left.
      * rewrite lookup_insert_ne by done. rewrite decide_False; [done|].
        intros [?|?]%elem_of_cons; contradiction.
Qed.

(** [Load] of a file that holds the lines of configs that are registered
    and save well. *)
Lemma Load_saved_file (f : ConfigSet) (w1 : World) (cs : list Config) :
  filename f <> "" ->
  filename f ∉ denied w1 ->
  files w1 !! filename f = Some (join (Save_line (heap w1) <$> cs)) ->
  Forall (fun c => formal f !! Config_Name c = Some c /\ saves_well (heap w1) c) cs ->
  exists f2 w2,
    ConfigSet_Load f w1 = Return f2 w2 /\
    heap w2 = heap w1 /\
    formal f2 = formal f /\
    files w2 = files w1 /\
    forall k, actual f2 !! k =
                if decide (k ∈ Config_Name <$> cs) then formal f !! k else actual f !! k.
Proof.
  intros Hname Hopen Hfile Hcs.
  set (w1' := print (Printf ("Loading config from %s" ++ nl) [ArgString (filename f)]) w1).
  assert (Hload : ConfigSet_Load f w1 =
            Load_lines f ((fun c => dropCR (String.rev (Save_text (heap w1') c))) <$> cs) w1').
  { unfold ConfigSet_Load. apply String.eqb_neq in Hname. rewrite Hname.
    unfold os_Open. cbn [denied files print]. rewrite decide_False by assumption.
    rewrite Hfile. fold w1'. f_equal.
    replace (Save_line (heap w1) <$> cs)
      with ((fun l => l ++ nl) <$> (Save_text (heap w1) <$> cs)).
    2:{ rewrite <- list_fmap_compose. apply list_fmap_ext. intros i c _. cbn.
        symmetry. apply Save_line_text. }
    rewrite bufio_Scan_lines.
    2:{ apply Forall_fmap. eapply Forall_impl; [exact Hcs|].
        intros c (_ & _ & _ & Hlf & Hlen & _). split; assumption. }
    by rewrite <- list_fmap_compose. }
  destruct (Load_lines_saved cs f w1' Hcs) as (f' & Hlines & Hformal & _ & Hactual).
  exists f', w1'. rewrite Hload, Hlines. auto.
Qed.

(** File round trip: when every config of the default set saves well (its
    name and its rendered value have no [#], no [=] and no white space or
    quote at their ends, its line has no newline and fits the scanner, and
    its value accepts its own rendering), [Save] followed by [Load] on that
    set leaves every bound variable as it was, keeps [formal], and records
    every registered name as set. *)
Theorem Save_then_Load_restores (Configuration : ConfigSet) (w : World) :
  keys_are_names (formal Configuration) ->
  actual_in_formal Configuration ->
  filename Configuration <> "" ->
  filename Configuration ∉ denied w ->
  (forall k c, formal Configuration !! k = Some c -> saves_well (heap w) c) ->
  exists w1 f2 w2,
    Save Configuration w = Return tt w1 /\
    Load Configuration w1 = Return f2 w2 /\
    heap w2 = heap w /\
    formal f2 = formal Configuration /\
    actual f2 = formal Configuration /\
    files w2 = files w1.
Proof.
  intros Hkeys Hsub Hname Hcreate Hwell.
  assert (Hsave : exists cs w1,
            Save Configuration w = Return tt w1 /\
            heap w1 = heap w /\ denied w1 = denied w /\
            files w1 !! filename Configuration = Some (join (Save_line (heap w) <$> cs)) /\
            Config_Name <$> cs ≡ₚ (map_to_list (formal Configuration)).*1 /\
            Forall (fun c => formal Configuration !! Config_Name c = Some c) cs).
  { unfold Save, ConfigSet_Save, VisitAll, ConfigSet_VisitAll.
    pose proof Hname as Hname'. apply String.eqb_neq in Hname'. rewrite Hname'.
    unfold os_Create. cbn [denied print]. rewrite decide_False by assumption.
    destruct (sortConfigs_spec _ Hkeys) as (cs & -> & Hperm & _ & Hall).
    match goal with |- context [visit_each _ _ ?w0] => set (w0' := w0) end.
    destruct (visit_each_Save_visitor (filename Configuration) cs w0' "")
      as (w' & -> & Hheap & Hout & Hden & Hfile).
    { unfold w0'. cbn [files]. apply lookup_insert_eq. }
    exists cs. eexists. split; [reflexivity|]. cbn [heap denied files print].
    rewrite Hheap, Hden, Hfile, append_nil. auto. }
  destruct Hsave as (cs & w1 & Hsave & Hheap & Hden & Hfile & Hperm & Hall).
  destruct (Load_saved_file Configuration w1 cs Hname) as (f2 & w2 & Hload & Hh & Hf & Hfs & Hact).
  { by rewrite Hden. }
  { by rewrite Hheap. }
  { rewrite Hheap. eapply Forall_impl; [exact Hall|].
    intros c Hc. split; [exact Hc|]. eapply Hwell, Hc. }
  exists w1, f2, w2. split; [exact Hsave|]. split; [exact Hload|].
  split; [congruence|]. split; [exact Hf|]. split; [|exact Hfs].
  apply map_eq. intros k. rewrite Hact.
  destruct (decide (k ∈ Config_Name <$> cs)) as [Hin|Hin]; [reflexivity|].
  destruct (formal Configuration !! k) as [c|] eqn:Hk.
  - exfalso. apply Hin. rewrite Hperm. apply list_elem_of_fmap.
    exists (k, c). split; [reflexivity|]. by apply elem_of_map_to_list.
  - eapply lookup_weaken_None; eassumption.
Qed.

Lemma Save_then_Load_restores_witness :
  keys_are_names (formal sample_two.1) /\
  actual_in_formal sample_two.1 /\
  filename sample_two.1 <> "" /\
  (filename sample_two.1 ∉ denied sample_two.2) /\
  (forall k c, formal sample_two.1 !! k = Some c -> saves_well (heap sample_two.2) c) /\
  heap sample_two.2 = [CBool true; CInt 42] /\
  exists w1 f2 w2,
    Save sample_two.1 sample_two.2 = Return tt w1 /\
    Load sample_two.1 w1 = Return f2 w2 /\
    heap w2 = heap sample_two.2 /\
    formal f2 = formal sample_two.1 /\
    actual f2 = formal sample_two.1 /\
    files w2 = files w1.
Proof.
  assert (Hformal : formal sample_two.1 =
            <["n" := mkConfig "n" "count" (intValue 1%nat) "42"]>
              (<["b" := mkConfig "b" "flag" (boolValue 0%nat) "true"]> ∅)) by reflexivity.
  assert (Hkeys : keys_are_names (formal sample_two.1)).
  { rewrite Hformal. intros k c [[<- <-]|[_ Hc]]%lookup_insert_Some; [reflexivity|].
    apply lookup_insert_Some in Hc as [[<- <-]|[_ Hc]]; [reflexivity|].
    by rewrite lookup_empty in Hc. }
  assert (Hsub : actual_in_formal sample_two.1) by apply map_empty_subseteq.
  assert (Hname : filename sample_two.1 <> "") by discriminate.
  assert (Hcreate : filename sample_two.1 ∉ denied sample_two.2) by apply not_elem_of_empty.
  assert (Hwell : forall k c, formal sample_two.1 !! k = Some c ->
                              saves_well (heap sample_two.2) c).
  { rewrite Hformal. intros k c [[<- <-]|[_ Hc]]%lookup_insert_Some;
      [|apply lookup_insert_Some in Hc as [[<- <-]|[_ Hc]];
        [|by rewrite lookup_empty in Hc]];
      repeat split; reflexivity. }
  split; [exact Hkeys|]. split; [exact Hsub|]. split; [exact Hname|].
  split; [exact Hcreate|]. split; [exact Hwell|]. split; [reflexivity|].
  exact (Save_then_Load_restores sample_two.1 sample_two.2 Hkeys Hsub Hname Hcreate Hwell).
Defined.

(** ** Renderings that are clean *)

Lemma plain_byte_facts (a : ascii) :
  plain_byte a = true ->
  Ascii.eqb a "#" = false /\ Ascii.eqb a "=" = false /\ Ascii.eqb a LF = false /\
  Ascii.eqb a quote = false /\ asciiSpace a = false /\
  (forall x, isSpace2 a x = false) /\ (forall x, isSpace2 x a = false) /\
  (forall x y, isSpace3 a x y = false) /\ (forall x y, isSpace3 x y a = false).
Proof.
  destruct a as [[] [] [] [] [] [] [] []]; intros Ha; try discriminate Ha;
    repeat split; intros; try reflexivity;
    unfold isSpace2, isSpace3; cbn; by rewrite ?andb_false_r.
Qed.

Lemma all_plain_count (c : ascii) (s : string) :
  plain_byte c = false -> all_plain s = true -> count_byte c s = 0%nat.
Proof.
  intros Hc. induction s as [|a s IH]; cbn [all_plain count_byte]; [done|].
  intros [Ha Hs]%andb_prop. rewrite (IH Hs).
  destruct (Ascii.eqb_spec a c) as [->|_]; [congruence|reflexivity].
Qed.

Lemma all_plain_rev_app (s1 s2 : string) :
  all_plain (String.rev_app s1 s2) = all_plain s1 && all_plain s2.
Proof.
  revert s2. induction s1 as [|a s1 IH]; intros s2; cbn [String.rev_app all_plain]; [done|].
  rewrite IH. cbn [all_plain]. by destruct (plain_byte a), (all_plain s1).
Qed.

Lemma all_plain_rev (s : string) : all_plain (String.rev s) = all_plain s.
Proof. unfold String.rev. rewrite all_plain_rev_app. cbn. apply andb_true_r. Qed.

Lemma all_plain_trimLeftSpace (s : string) : all_plain s = true -> trimLeftSpace s = s.
Proof.
  destruct s as [|c0 s1]; [done|]. cbn [all_plain]. intros [Hc _]%andb_prop.
  destruct (plain_byte_facts c0 Hc) as (_ & _ & _ & _ & Hsp & H2 & _ & H3 & _).
  rewrite trimLeftSpace_unfold, Hsp. destruct s1 as [|c1 s2]; [done|]. rewrite H2.
  destruct s2 as [|c2 s3]; [done|]. by rewrite H3.
Qed.

Lemma all_plain_trimRightSpace_rev (r : string) :
  all_plain r = true -> trimRightSpace_rev r = r.
Proof.
  destruct r as [|c0 r1]; [done|]. cbn [all_plain]. intros [Hc _]%andb_prop.
  destruct (plain_byte_facts c0 Hc) as (_ & _ & _ & _ & Hsp & _ & H2 & _ & H3).
  rewrite trimRightSpace_rev_unfold, Hsp. destruct r1 as [|c1 r2]; [done|]. rewrite H2.
  destruct r2 as [|c2 r3]; [done|]. by rewrite H3.
Qed.

Lemma all_plain_trimLeftBytes_quote (s : string) :
  all_plain s = true -> trimLeftBytes (String quote "") s = s.
Proof.
  destruct s as [|c0 s1]; [done|]. cbn [all_plain]. intros [Hc _]%andb_prop.
  destruct (plain_byte_facts c0 Hc) as (_ & _ & _ & Hq & _).
  cbn [trimLeftBytes]. unfold in_cutset. cbn [list_ascii_of_string existsb].
  by rewrite Hq.
Qed.

(** A text of plain bytes is a clean value without newline: the file codec
    reads it back as it is. *)
Lemma all_plain_clean (s : string) :
  all_plain s = true -> clean_value s /\ count_byte LF s = 0%nat.
Proof.
  intros Hs. repeat split; try (by apply all_plain_count).
  - unfold strings_TrimSpace.
    rewrite (all_plain_trimLeftSpace s Hs), all_plain_trimRightSpace_rev
      by (by rewrite all_plain_rev).
    apply rev_involutive'.
  - unfold strings_Trim.
    rewrite (all_plain_trimLeftBytes_quote (String.rev s)) by (by rewrite all_plain_rev).
    rewrite rev_involutive'. by apply all_plain_trimLeftBytes_quote.
Qed.

Lemma plain_digit_char (d : Z) : 0 <= d < 10 -> plain_byte (digit_char d) = true.
Proof.
  intros Hd.
  assert (Hcases : d = 0 \/ d = 1 \/ d = 2 \/ d = 3 \/ d = 4 \/ d = 5 \/ d = 6 \/ d = 7
                   \/ d = 8 \/ d = 9) by lia.
  repeat (destruct Hcases as [->|Hcases]; [reflexivity|]). by subst.
Qed.

Lemma all_plain_formatBits_loop (fuel : nat) (u : Z) (acc : string) :
  all_plain acc = true -> all_plain (formatBits_loop fuel 10 u acc) = true.
Proof.
  revert u acc. induction fuel as [|k IH]; intros u acc Hacc; cbn [formatBits_loop]; [done|].
  assert (Hstep : all_plain (String (digit_char (u mod 10)) acc) = true).
  { cbn [all_plain]. rewrite plain_digit_char, Hacc; [done|].
    apply Z.mod_pos_bound. lia. }
  destruct (u <? 10); [exact Hstep|by apply IH].
Qed.

Lemma all_plain_formatBits (u : Z) (neg : bool) : all_plain (formatBits u 10 neg) = true.
Proof.
  unfold formatBits. destruct neg; [cbn [all_plain]; rewrite all_plain_formatBits_loop; done|].
  by apply all_plain_formatBits_loop.
Qed.

(** A bool, int, int64, uint or uint64 config saves well as soon as its
    name is clean, its cell holds a value of its type, and its line has no
    newline and fits the scanner: the rendering of a number or of a boolean
    is made of plain bytes and parses back to the value. *)
Theorem integer_configs_save_well
    (h : list cell) (p : loc) (name usage default : string) (value : Value) :
  clean_key name ->
  count_byte LF name = 0%nat ->
  count_byte LF usage = 0%nat ->
  Z.of_nat (String.length (Save_text h (mkConfig name usage value default)))
    < MaxScanTokenSize ->
  (exists b, value = boolValue p /\ h !! p = Some (CBool b)) \/
  (exists i, value = intValue p /\ h !! p = Some (CInt i) /\ - 2 ^ 63 <= i < 2 ^ 63) \/
  (exists i, value = int64Value p /\ h !! p = Some (CInt64 i) /\ - 2 ^ 63 <= i < 2 ^ 63) \/
  (exists u, value = uintValue p /\ h !! p = Some (CUint u) /\ 0 <= u < 2 ^ 64) \/
  (exists u, value = uint64Value p /\ h !! p = Some (CUint64 u) /\ 0 <= u < 2 ^ 64) ->
  saves_well h (mkConfig name usage value default).
Proof.
  intros Hname Hnlf Hulf Hlen Hkind.
  assert (Hplain : all_plain (Value_String value h) = true /\
                   Value_Set value (Value_String value h) h = (h, None)).
  { destruct Hkind as [(b & -> & Hp)|[(i & -> & Hp & Hi)|[(i & -> & Hp & Hi)|
                       [(u & -> & Hp & Hu)|(u & -> & Hp & Hu)]]]];
      cbn [Value_String Value_Set boolValue intValue int64Value uintValue uint64Value].
    - unfold boolValue_Set, boolValue_String, load_bool. rewrite Hp.
      rewrite strconv_ParseBool_FormatBool, store_same by assumption. by destruct b.
    - unfold intValue_Set, intValue_String, load_int, strconv_Itoa. rewrite Hp.
      rewrite strconv_ParseInt_FormatInt, store_same by assumption.
      split; [apply all_plain_formatBits|reflexivity].
    - unfold int64Value_Set, int64Value_String, load_int64. rewrite Hp.
      rewrite strconv_ParseInt_FormatInt, store_same by assumption.
      split; [apply all_plain_formatBits|reflexivity].
    - unfold uintValue_Set, uintValue_String, load_uint. rewrite Hp.
      rewrite strconv_ParseUint_FormatUint, store_same by assumption.
      split; [apply all_plain_formatBits|reflexivity].
    - unfold uint64Value_Set, uint64Value_String, load_uint64. rewrite Hp.
      rewrite strconv_ParseUint_FormatUint, store_same by assumption.
      split; [apply all_plain_formatBits|reflexivity]. }
  destruct Hplain as [Hplain Hround].
  destruct (all_plain_clean _ Hplain) as [Hclean Hvlf].
  unfold saves_well. cbn [Config_Name Config_Value Config_Usage].
  split; [assumption|]. split; [assumption|]. split; [|split; assumption].
  unfold Save_text. cbn [Config_Name Config_Value Config_Usage].
  rewrite !count_byte_append, Hnlf, Hvlf, Hulf. reflexivity.
Qed.

Lemma integer_configs_save_well_witness :
  clean_key "port" /\
  count_byte LF "port" = 0%nat /\
  count_byte LF "where to listen" = 0%nat /\
  Z.of_nat (String.length
              (Save_text [CInt (-8080)]
                 (mkConfig "port" "where to listen" (intValue 0%nat) "0")))
    < MaxScanTokenSize /\
  saves_well [CInt (-8080)] (mkConfig "port" "where to listen" (intValue 0%nat) "0").
Proof.
  assert (Hkey : clean_key "port") by (repeat split; reflexivity).
  split; [exact Hkey|]. split; [reflexivity|]. split; [reflexivity|].
  split; [reflexivity|].
  refine (integer_configs_save_well [CInt (-8080)] 0%nat "port" "where to listen" "0"
            (intValue 0%nat) Hkey eq_refl eq_refl eq_refl _).
  right. left. exists (-8080). split; [reflexivity|]. split; [reflexivity|].
  split; [discriminate|reflexivity].
Defined.

(** ** Comments and accepted texts *)

(** [Load] reads a line as if it ended before its first [#]: what follows
    the [#] never matters, and a [#] inside a value, quoted or not, cuts the
    value there. *)
Theorem Load_line_ignores_comment (f : ConfigSet) (a b : string) (w : World) :
  count_byte "#" a = 0%nat ->
  Load_line f (a ++ String "#" b) w = Load_line f a w.
Proof.
  intros Ha. unfold Load_line.
  destruct (strip_comment_spec a Ha) as [-> Hcut]. by rewrite Hcut.
Qed.

Lemma Load_line_ignores_comment_witness :
  count_byte "#" ("s = " ++ String quote "a") = 0%nat /\
  Load_line (NewConfigSet "") (("s = " ++ String quote "a") ++ String "#" (String "b" (String quote "")))
    w_empty =
  Load_line (NewConfigSet "") ("s = " ++ String quote "a") w_empty /\
  exists f' w',
    Load_line (NewConfigSet "") ("s = " ++ String quote "a") w_empty = Return f' w' /\
    heap w' = [CString "a"].
Proof.
  split; [reflexivity|]. split.
  - exact (Load_line_ignores_comment (NewConfigSet "") ("s = " ++ String quote "a")
             (String "b" (String quote "")) w_empty eq_refl).
  - eexists _, _. split; reflexivity.
Defined.

(** [Set] with a text that the type of a registered config accepts stores
    the parsed value in the cell the config is bound to, leaves every other
    cell, the output and the files as they were, and records the name in
    [actual]; for a string config every text is accepted and stored as it
    is. *)
Theorem Set_valid_text_stores_parsed_value
    (f : ConfigSet) (name text : string) (w : World) (c : Config) (p : loc) :
  formal f !! name = Some c ->
  (forall v, Config_Value c = boolValue p -> strconv_ParseBool text = (v, None) ->
     ConfigSet_Set f name text w =
       Return (set_actual (<[name := c]> (actual f)) f, None)
         (set_heap (store (heap w) p (CBool v)) w)) /\
  (forall v, Config_Value c = intValue p -> strconv_ParseInt text 0 64 = (v, None) ->
     ConfigSet_Set f name text w =
       Return (set_actual (<[name := c]> (actual f)) f, None)
         (set_heap (store (heap w) p (CInt v)) w)) /\
  (forall v, Config_Value c = int64Value p -> strconv_ParseInt text 0 64 = (v, None) ->
     ConfigSet_Set f name text w =
       Return (set_actual (<[name := c]> (actual f)) f, None)
         (set_heap (store (heap w) p (CInt64 v)) w)) /\
  (forall v, Config_Value c = uintValue p -> strconv_ParseUint text 0 64 = (v, None) ->
     ConfigSet_Set f name text w =
       Return (set_actual (<[name := c]> (actual f)) f, None)
         (set_heap (store (heap w) p (CUint v)) w)) /\
  (forall v, Config_Value c = uint64Value p -> strconv_ParseUint text 0 64 = (v, None) ->
     ConfigSet_Set f name text w =
       Return (set_actual (<[name := c]> (actual f)) f, None)
         (set_heap (store (heap w) p (CUint64 v)) w)) /\
  (Config_Value c = stringValue p ->
     ConfigSet_Set f name text w =
       Return (set_actual (<[name := c]> (actual f)) f, None)
         (set_heap (store (heap w) p (CString text)) w)).
Proof.
  intros Hc. rewrite (ConfigSet_Set_registered _ _ _ _ _ Hc).
  repeat split; intros; 
    match goal with H : Config_Value c = _ |- _ => rewrite H end;
    cbn [Value_Set boolValue intValue int64Value uintValue uint64Value stringValue];
    unfold boolValue_Set, intValue_Set, int64Value_Set, uintValue_Set, uint64Value_Set,
      stringValue_Set;
    try match goal with H : _ = (_, None) |- _ => rewrite H end; reflexivity.
Qed.

Lemma Set_valid_text_stores_parsed_value_witness :
  formal sample_two.1 !! "n" = Some (mkConfig "n" "count" (intValue 1%nat) "42") /\
  strconv_ParseInt "0x1F" 0 64 = (31, None) /\
  ConfigSet_Set sample_two.1 "n" "0x1F" sample_two.2 =
    Return (set_actual (<["n" := mkConfig "n" "count" (intValue 1%nat) "42"]>
                          (actual sample_two.1)) sample_two.1, None)
      (set_heap [CBool true; CInt 31] sample_two.2).
Proof.
  split; [reflexivity|]. split; [reflexivity|].
  exact (proj1 (proj2 (Set_valid_text_stores_parsed_value sample_two.1 "n" "0x1F"
                         sample_two.2 (mkConfig "n" "count" (intValue 1%nat) "42") 1%nat
                         eq_refl)) 31 eq_refl eq_refl).
Defined.
